(** * Trace conformance helpers of knative eventing: a shallow embedding

    The development follows [test/conformance/helpers] (the file holding
    [tracingTest] and [getTraceIDHeader]).  The test handle [*testing.T] is a
    writer of log lines with a fatal exit; the OpenTelemetry propagation API,
    the zipkin poller and the [tracinghelper] package are interfaces the code
    calls, given here as type classes with one executable instance each. *)

From Stdlib Require Import ZArith Ascii String.
From Stdlib.Strings Require Import Byte.
From stdpp Require Import base option list relations strings gmap.

#[local] Set Warnings "-register-all".

(** ** The test handle: [t.Logf], [t.Fatal], [t.Fatalf] *)

Module Testing.

(** A call either returns, or leaves through [t.Fatal] ([FailNow] stops the
    test goroutine, nothing after it runs). *)
Inductive Result (F A : Type) : Type :=
| Ret (a : A)
| Fatal (msg : F).
Arguments Ret {F A} a.
Arguments Fatal {F A} msg.

(** What was written to the test log, oldest line first, and how the call
    ended. *)
Definition Test (L F A : Type) : Type := (list L * Result F A)%type.

Definition ret {L F A} (a : A) : Test L F A := ([], Ret a).

Definition bind {L F A B} (m : Test L F A) (k : A -> Test L F B) : Test L F B :=
  match m with
  | (l1, Ret a) => let '(l2, r) := k a in ((l1 ++ l2)%list, r)
  | (l1, Fatal msg) => (l1, Fatal msg)
  end.

Definition Logf {L F} (line : L) : Test L F unit := ([line], Ret tt).

Definition Fatalf {L F A} (msg : F) : Test L F A := ([], Fatal msg).

Definition logged {L F A} (m : Test L F A) : list L := fst m.

Definition outcome {L F A} (m : Test L F A) : Result F A := snd m.

End Testing.

Import Testing.

#[export] Instance Test_ret {L F} : MRet (Test L F) := fun A => @Testing.ret L F A.
#[export] Instance Test_bind {L F} : MBind (Test L F) :=
  fun A B k m => @Testing.bind L F A B m k.

(** ** [recordevents.EventInfo] *)

(** [http.Header]-shaped data: [map[string][]string]. *)
Abbreviation Header := (gmap string (list string)).

(** The captured event.  [getTraceIDHeader] reads [HTTPHeaders] only; the
    rest of the record is carried as [Event]. [HTTPHeaders = None] is the nil
    map. *)
Record EventInfo : Type := {
  Event : string;
  HTTPHeaders : option Header
}.

(** ** The OpenTelemetry calls made by [getTraceIDHeader] *)

Class Propagation : Type := {
  Context : Type;
  SpanContext : Type;
  (** [context.TODO()] *)
  TODO : Context;
  (** [propagation.TraceContext{}.Extract(ctx, propagation.HeaderCarrier(h))] *)
  Extract : Context -> Header -> Context;
  (** [trace.SpanContextFromContext(ctx)] *)
  SpanContextFromContext : Context -> SpanContext;
  (** [sc.HasTraceID()] *)
  HasTraceID : SpanContext -> bool;
  (** [sc.TraceID().String()] *)
  TraceIDString : SpanContext -> string
}.

(** ** [getTraceIDHeader] *)

Section GetTraceIDHeader.
Context `{Propagation}.

(** The body of the loop for one event: [Some id] when the body returns
    [id], [None] when the loop moves on to the next index. *)
Definition traceIDOf (ev : EventInfo) : option string :=
  match HTTPHeaders ev with
  | None => None
  | Some h =>
      let sc := SpanContextFromContext (Extract TODO h) in
      if HasTraceID sc then Some (TraceIDString sc) else None
  end.

(** [for i := range evInfos { ... }] *)
Fixpoint scanEvents (evInfos : list EventInfo) : option string :=
  match evInfos with
  | [] => None
  | ev :: rest =>
      match traceIDOf ev with
      | Some id => Some id
      | None => scanEvents rest
      end
  end.

(** ["FAIL: No traceid in %d messages: (%v)"] with its two arguments. *)
Inductive TraceIDFailure : Type :=
| NoTraceID (n : nat) (evInfos : list EventInfo).

Definition getTraceIDHeader {L} (evInfos : list EventInfo)
  : Test L TraceIDFailure string :=
  match scanEvents evInfos with
  | Some id => ret id
  | None => Fatalf (NoTraceID (length evInfos) evInfos)
  end.

(** The event carries no usable trace context: nil headers, or headers
    from which no trace ID comes out. *)
Definition noTraceID (ev : EventInfo) : Prop :=
  forall h, HTTPHeaders ev = Some h ->
    HasTraceID (SpanContextFromContext (Extract TODO h)) = false.

(** The event carries a well-formed trace context whose trace ID prints as
    [id]. *)
Definition carriesTraceID (ev : EventInfo) (id : string) : Prop :=
  exists h, HTTPHeaders ev = Some h /\
    HasTraceID (SpanContextFromContext (Extract TODO h)) = true /\
    TraceIDString (SpanContextFromContext (Extract TODO h)) = id.

(** The same loop as a transition system over the loop index, one step per
    iteration. *)
Inductive LoopState : Type :=
| AtIndex (i : nat)
| Returned (id : string)
| Failed (msg : TraceIDFailure).

Inductive loopStep (evInfos : list EventInfo) : LoopState -> LoopState -> Prop :=
| step_nil_headers i ev :
    evInfos !! i = Some ev ->
    HTTPHeaders ev = None ->
    loopStep evInfos (AtIndex i) (AtIndex (S i))
| step_no_trace_id i ev h :
    evInfos !! i = Some ev ->
    HTTPHeaders ev = Some h ->
    HasTraceID (SpanContextFromContext (Extract TODO h)) = false ->
    loopStep evInfos (AtIndex i) (AtIndex (S i))
| step_return i ev h :
    evInfos !! i = Some ev ->
    HTTPHeaders ev = Some h ->
    HasTraceID (SpanContextFromContext (Extract TODO h)) = true ->
    loopStep evInfos (AtIndex i)
      (Returned (TraceIDString (SpanContextFromContext (Extract TODO h))))
| step_fatal i :
    evInfos !! i = None ->
    loopStep evInfos (AtIndex i) (Failed (NoTraceID (length evInfos) evInfos)).

Definition finished (s : LoopState) : bool :=
  match s with AtIndex _ => false | _ => true end.

(** A complete run of the loop from index 0. *)
Definition runsTo (evInfos : list EventInfo) (s : LoopState) : Prop :=
  rtc (loopStep evInfos) (AtIndex 0) s /\ finished s = true.

Definition stateOf (r : Result TraceIDFailure string) : LoopState :=
  match r with
  | Ret id => Returned id
  | Fatal msg => Failed msg
  end.

End GetTraceIDHeader.

(** ** An instance of [Propagation]: W3C [traceparent] decoding

    go.opentelemetry.io/otel is a dependency of the repository.  This
    instance decodes the [traceparent] header the way its [TraceContext]
    propagator does, so that the claims can be run on concrete headers. *)

Module W3C.
Local Open Scope string_scope.

(** [trace.TraceID] is [[16]byte], [trace.SpanID] is [[8]byte]. *)
Record SpanContextConfig : Type := {
  TraceID : list byte;
  SpanID : list byte;
  TraceFlags : N;
  Remote : bool
}.

Definition nilTraceID : list byte := repeat x00 16.
Definition nilSpanID : list byte := repeat x00 8.

Definition bytes_eqb (a b : list byte) : bool :=
  bool_decide (map Byte.to_N a = map Byte.to_N b).

Definition emptySpanContext : SpanContextConfig :=
  {| TraceID := nilTraceID; SpanID := nilSpanID; TraceFlags := 0; Remote := false |}.

Definition hasTraceID (sc : SpanContextConfig) : bool :=
  negb (bytes_eqb (TraceID sc) nilTraceID).

Definition hasSpanID (sc : SpanContextConfig) : bool :=
  negb (bytes_eqb (SpanID sc) nilSpanID).

Definition isValid (sc : SpanContextConfig) : bool :=
  hasTraceID sc && hasSpanID sc.

Definition hexDigit (n : N) : ascii :=
  match String.get (N.to_nat n) "0123456789abcdef" with
  | Some c => c
  | None => "0"%char
  end.

(** [hex.EncodeToString] *)
Fixpoint encodeToString (bs : list byte) : string :=
  match bs with
  | [] => ""
  | b :: rest =>
      let n := Byte.to_N b in
      String (hexDigit (n / 16)) (String (hexDigit (n mod 16)) (encodeToString rest))
  end.

(** Lower-case hexadecimal digits only. *)
Definition hexValue (c : ascii) : option N :=
  let n := N_of_ascii c in
  if ((48 <=? n) && (n <=? 57))%N then Some (n - 48)%N
  else if ((97 <=? n) && (n <=? 102))%N then Some (n - 87)%N
  else None.

Fixpoint decodeHex (s : string) : option (list byte) :=
  match s with
  | EmptyString => Some []
  | String _ EmptyString => None
  | String hi (String lo rest) =>
      match hexValue hi, hexValue lo, decodeHex rest with
      | Some h, Some l, Some bs =>
          match Byte.of_N (16 * h + l) with
          | Some b => Some (b :: bs)
          | None => None
          end
      | _, _, _ => None
      end
  end.

(** [strings.Cut(h, "-")]: the text before the first dash and the text
    after it. *)
Fixpoint cutDash (s : string) : string * string :=
  match s with
  | EmptyString => ("", "")
  | String c rest =>
      if Ascii.eqb c "-"%char then ("", rest)
      else let '(part, after) := cutDash rest in (String c part, after)
  end.

(** One dash-separated field of [n] hexadecimal characters. *)
Definition extractPart (n : nat) (h : string) : option (list byte * string) :=
  let '(part, after) := cutDash h in
  if Nat.eqb (String.length part) n then
    match decodeHex part with
    | Some bs => Some (bs, after)
    | None => None
    end
  else None.

(** [http.Header.Get]: the first value stored under the canonical key. *)
Definition headerGet (h : Header) (key : string) : string :=
  match h !! key with
  | Some (v :: _) => v
  | _ => ""
  end.

Definition traceparentHeader : string := "Traceparent".

Definition byteValue (bs : list byte) : N :=
  match bs with
  | [b] => Byte.to_N b
  | _ => 0
  end.

(** Decoding of a [traceparent] value [vv-<32 hex>-<16 hex>-<ff>]. *)
Definition extract (h : Header) : SpanContextConfig :=
  let v := headerGet h traceparentHeader in
  if String.eqb v "" then emptySpanContext else
  match extractPart 2 v with
  | None => emptySpanContext
  | Some (ver, v1) =>
    if (254 <? byteValue ver)%N then emptySpanContext else
    match extractPart 32 v1 with
    | None => emptySpanContext
    | Some (tid, v2) =>
      match extractPart 16 v2 with
      | None => emptySpanContext
      | Some (sid, v3) =>
        match extractPart 2 v3 with
        | None => emptySpanContext
        | Some (opts, v4) =>
          if (byteValue ver =? 0)%N
             && (negb (String.eqb v4 "") || (2 <? byteValue opts)%N)
          then emptySpanContext
          else
            let sc := {| TraceID := tid; SpanID := sid;
                         TraceFlags := N.land (byteValue opts) 1;
                         Remote := true |} in
            if isValid sc then sc else emptySpanContext
        end
      end
    end
  end.

(** The context carries at most one remote span context. *)
Definition extractInto (ctx : option SpanContextConfig) (h : Header)
  : option SpanContextConfig :=
  let sc := extract h in
  if isValid sc then Some sc else ctx.

Definition spanContextFromContext (ctx : option SpanContextConfig)
  : SpanContextConfig :=
  match ctx with
  | Some sc => sc
  | None => emptySpanContext
  end.

#[export] Instance propagation : Propagation := {|
  Context := option SpanContextConfig;
  SpanContext := SpanContextConfig;
  TODO := None;
  Extract := extractInto;
  SpanContextFromContext := spanContextFromContext;
  HasTraceID := hasTraceID;
  TraceIDString := fun sc => encodeToString (TraceID sc)
|}.

Definition withTraceparent (ev : string) (v : string) : EventInfo :=
  {| Event := ev; HTTPHeaders := Some {[ traceparentHeader := [v] ]} |}.

Definition withoutHeaders (ev : string) : EventInfo :=
  {| Event := ev; HTTPHeaders := None |}.

End W3C.

(** ** The [tracinghelper] package and the zipkin span model, as called by
    [tracingTest]

    The package is an interface here.  Its one law is section 4.3 item 4 of
    the specification: a nil handle suppresses the diagnostic output. *)

(** A non-nil [*testing.T]; the nil handle is [None]. *)
Inductive testingT : Type := T_handle.

Class TraceHelpers : Type := {
  (** [model.SpanModel] *)
  SpanModel : Type;
  (** [*tracinghelper.SpanTree] *)
  SpanTree : Type;
  (** [tracinghelper.TestSpanTree] *)
  TestSpanTree : Type;
  (** an element of the slice [MatchesSubtree] returns *)
  Matched : Type;
  (** Go's [error] values *)
  error : Type;
  (** a line the matcher writes to the handle it is given *)
  Diag : Type;
  (** [tracinghelper.GetTraceTree(trace)] *)
  GetTraceTree : list SpanModel -> SpanTree + error;
  (** [tt.MatchesSubtree(t, tree)]: the lines written and the slice returned *)
  MatchesSubtree : TestSpanTree -> option testingT -> SpanTree -> list Diag * list Matched;
  (** [tracinghelper.PrettyPrintTrace(trace)] *)
  PrettyPrintTrace : list SpanModel -> string;
  (** Without a handle there is nothing to write to. *)
  MatchesSubtree_nil_silent :
    forall tt tree, fst (MatchesSubtree tt None tree) = []
}.

(** ** [tracingTest] *)

Section TracingTest.
Context `{Propagation} `{TraceHelpers}.

Inductive LogLine : Type :=
(** ["Unable to get trace %q: %v. Trace so far %+v"] *)
| UnableToGetTrace (traceID : string) (err : error) (traceSoFar : string)
| MatcherOutput (d : Diag).

Inductive FatalMsg : Type :=
(** ["Pod tracker failed:", err] *)
| PodTrackerFailed (err : error)
| TraceIDFatal (f : TraceIDFailure)
(** [t.Fatal(err)] after [GetTraceTree] *)
| GetTraceTreeFailed (err : error)
(** ["No matching subtree. want: %v got: %v"] *)
| NoMatchingSubtree (want : TestSpanTree) (got : SpanTree).

Abbreviation TestM := (Test LogLine FatalMsg).

Definition liftFatal {L F F' A} (f : F -> F') (m : Test L F A) : Test L F' A :=
  match m with
  | (l, Ret a) => (l, Ret a)
  | (l, Fatal msg) => (l, Fatal (f msg))
  end.

(** A call of [MatchesSubtree]: its lines go to the test log. *)
Definition callMatchesSubtree (tt : TestSpanTree) (t : option testingT)
    (tree : SpanTree) : TestM (list Matched) :=
  let r := MatchesSubtree tt t tree in
  (MatcherOutput <$> r.1, Ret r.2).

(** [zipkin.JSONTracePred(traceID, timeout, pred)]: the trace and the error
    it returns. *)
Definition Poller : Type :=
  string -> Z -> (list SpanModel -> TestM bool) -> TestM (list SpanModel * option error).

(** [time.Minute], in nanoseconds. *)
Definition Minute : Z := (60 * 1000000000)%Z.

(** The closure handed to [JSONTracePred]. *)
Definition tracePred (expectedTestSpan : TestSpanTree) (trace : list SpanModel)
  : TestM bool :=
  match GetTraceTree trace with
  | inr _ => mret false
  | inl tree =>
      ms ← callMatchesSubtree expectedTestSpan None tree;
      mret (0 <? length ms)
  end.

(** What follows the poll when it returned an error. *)
Definition reportPollFailure (expectedTestSpan : TestSpanTree) (traceID : string)
    (trace : list SpanModel) (err : error) : TestM unit :=
  Logf (UnableToGetTrace traceID err (PrettyPrintTrace trace));;
  match GetTraceTree trace with
  | inr err => Fatalf (GetTraceTreeFailed err)
  | inl tree =>
      ms ← callMatchesSubtree expectedTestSpan (Some T_handle) tree;
      if length ms =? 0
      then Fatalf (NoMatchingSubtree expectedTestSpan tree)
      else mret tt
  end.

(** [tracingTest], from the event-info store on.  [trackerErr] is the error
    of [recordevents.NewEventInfoStore], [expectedTestSpan] what
    [setupInfrastructure] returned and [matches] what [AssertAtLeast]
    returned. *)
Definition tracingTest (JSONTracePred : Poller) (trackerErr : option error)
    (expectedTestSpan : TestSpanTree) (matches : list EventInfo) : TestM unit :=
  match trackerErr with
  | Some err => Fatalf (PodTrackerFailed err)
  | None =>
      traceID ← liftFatal TraceIDFatal (getTraceIDHeader matches);
      '(trace, err) ← JSONTracePred traceID (5 * Minute)%Z (tracePred expectedTestSpan);
      match err with
      | Some err => reportPollFailure expectedTestSpan traceID trace err
      | None => mret tt
      end
  end.

(** *** The poller *)

Section Poll.
Variable timeoutError : option error -> error.
Variable pred : list SpanModel -> TestM bool.

(** Modelled from the spec: the trace poller of section 4.5
    ([zipkin.JSONTracePred] is code of knative.dev/pkg and is missing).  The
    loop runs over the answers of the tracing backend, one per tick before
    the deadline, a span list or a query error.  A query error is kept as
    the last error and polling goes on; when the ticks run out the poll ends
    with a timeout error that wraps the last error, and hands back the last
    span list it fetched. *)
Fixpoint pollLoop (ticks : list (list SpanModel + error))
    (trace : list SpanModel) (lastErr : option error)
  : TestM (list SpanModel * option error) :=
  match ticks with
  | [] => mret (trace, Some (timeoutError lastErr))
  | inr e :: later => pollLoop later trace (Some e)
  | inl fetched :: later =>
      ok ← pred fetched;
      if ok : bool then mret (fetched, None)
      else pollLoop later fetched lastErr
  end.
End Poll.

(** Modelled from the spec: [JSONTracePred] as the loop above, started on the
    answers [backend traceID] of [GetTraceByID] (the poller is missing). *)
Definition scriptedJSONTracePred (timeoutError : option error -> error)
    (backend : string -> list (list SpanModel + error)) : Poller :=
  fun traceID _ pred => pollLoop timeoutError pred (backend traceID) [] None.

End TracingTest.

(** ** The span-tree model, the tree builder and the subtree matcher

    The package [test/conformance/helpers/tracing], after sections 3, 4.1,
    4.2 and 4.3 of the specification. *)

Module SpanTrees.
Local Open Scope string_scope.

(** Modelled from the spec: the [ObservedSpan] record of section 3 (the
    tracing package that declares it is missing). *)
Record ObservedSpan : Type := {
  spanID : N;
  parentSpanID : option N;
  traceID : string;
  serviceName : string;
  kind : string;
  startTime : Z;
  tags : gmap string string
}.

#[export] Instance ObservedSpan_eq_dec : EqDecision ObservedSpan.
Proof. solve_decision. Defined.

(** Modelled from the spec: the [ObservedTree] of section 3, a span with
    its ordered children (the tracing package is missing). *)
Inductive ObservedTree : Type :=
| Node (span : ObservedSpan) (children : list ObservedTree).

(** Modelled from the spec: the name predicate of a [SpanExpectation],
    "exact string or any" (sections 3 and 9; the tracing package is
    missing). *)
Inductive NamePredicate : Type :=
| Any
| Exact (name : string).

(** Modelled from the spec: the [SpanExpectation] of section 3, a name
    predicate, an optional kind constraint and ordered children (the
    tracing package is missing). *)
Inductive SpanExpectation : Type :=
| Expect (serviceNamePredicate : NamePredicate) (kindConstraint : option string)
         (children : list SpanExpectation).

(** Modelled from the spec: the errors of sections 4.2, 4.5 and 7 (the
    tracing package and the poller are missing). *)
Inductive TraceError : Type :=
| MalformedTraceError (conflicting : N)
| BackendError (what : string)
| TimedOut (lastErr : option TraceError).

Definition rootSpan (t : ObservedTree) : ObservedSpan :=
  match t with Node s _ => s end.

(** Modelled from the spec: [Matches] of section 4.1, the name and kind
    predicate, "any" trivially true (the tracing package is missing). *)
Definition Matches (e : SpanExpectation) (s : ObservedSpan) : bool :=
  match e with
  | Expect p k _ =>
      match p with
      | Any => true
      | Exact name => String.eqb name (serviceName s)
      end
      && match k with
         | None => true
         | Some want => String.eqb want (kind s)
         end
  end.

(** Modelled from the spec: the order of siblings in section 3, start time
    ascending, ties broken by span ID (the tracing package is missing). *)
Definition spanLe (a b : ObservedSpan) : bool :=
  (startTime a <? startTime b)%Z
  || ((startTime a =? startTime b)%Z && (spanID a <=? spanID b)%N).

Fixpoint insertSpan (s : ObservedSpan) (sorted : list ObservedSpan) : list ObservedSpan :=
  match sorted with
  | [] => [s]
  | x :: rest => if spanLe s x then s :: sorted else x :: insertSpan s rest
  end.

Definition sortSpans (spans : list ObservedSpan) : list ObservedSpan :=
  foldr insertSpan [] spans.

Definition hasID (id : N) (s : ObservedSpan) : bool := (spanID s =? id)%N.

Definition isRoot (spans : list ObservedSpan) (s : ObservedSpan) : bool :=
  match parentSpanID s with
  | None => true
  | Some p => negb (existsb (hasID p) spans)
  end.

Definition isChildOf (parent : ObservedSpan) (s : ObservedSpan) : bool :=
  match parentSpanID s with
  | None => false
  | Some p => (p =? spanID parent)%N
  end.

(** Modelled from the spec: the structurally impossible input of section
    4.2, a span ID carried by two different spans; the first such span (the
    tracing package is missing). *)
Definition conflict (spans : list ObservedSpan) : option ObservedSpan :=
  List.find (fun s => existsb (fun s' => hasID (spanID s) s' && negb (bool_decide (s = s'))) spans)
            spans.

(** Modelled from the spec: the tree below [s] of section 4.2, children
    grouped by parent ID (the tracing package is missing).  [depth] bounds
    the nesting, which cannot exceed the number of spans. *)
Fixpoint buildTree (depth : nat) (spans : list ObservedSpan) (s : ObservedSpan)
  : ObservedTree :=
  match depth with
  | O => Node s []
  | S d => Node s (map (buildTree d spans) (sortSpans (List.filter (isChildOf s) spans)))
  end.

(** Modelled from the spec: [BuildForest] of section 4.2 (the tracing
    package with [GetTraceTree] is missing).  Spans are grouped by parent
    ID, a span with no parent or with a parent absent from the fetch is a
    root, siblings are ordered by start time then ID, and the only error
    is a span ID shared by two different spans. *)
Definition BuildForest (spans : list ObservedSpan) : list ObservedTree + TraceError :=
  match conflict spans with
  | Some s => inr (MalformedTraceError (spanID s))
  | None =>
      inl (map (buildTree (length spans) spans)
               (sortSpans (List.filter (isRoot spans) spans)))
  end.

(** Modelled from the spec: the [MatchResult] of section 3, the bindings of
    one embedding, empty when there is none (the tracing package is
    missing). *)
Definition MatchResult : Type := list (SpanExpectation * ObservedSpan).

(** Modelled from the spec: the rooted match of section 4.3 step 1 (the
    tracing package with [MatchesSubtree] is missing).  The expectation
    must hold at the root of the observed tree, and the expected children,
    in order, must each be matched at an observed child, in order;
    observed children in between are skipped. *)
Fixpoint rootedMatch (e : SpanExpectation) (o : ObservedTree) {struct e}
  : option MatchResult :=
  match e, o with
  | Expect _ _ es, Node s os =>
      if Matches e s then
        match
          (fix embed (es : list SpanExpectation) : list ObservedTree -> option MatchResult :=
             match es with
             | [] => fun _ => Some []
             | e' :: es' =>
                 fix scan (os : list ObservedTree) : option MatchResult :=
                   match os with
                   | [] => None
                   | o' :: os' =>
                       match rootedMatch e' o' with
                       | Some b1 =>
                           match embed es' os' with
                           | Some b2 => Some (b1 ++ b2)%list
                           | None => scan os'
                           end
                       | None => scan os'
                       end
                   end
             end) es os
        with
        | Some bs => Some ((e, s) :: bs)
        | None => None
        end
      else None
  end.

(** Modelled from the spec: section 4.3 steps 2 and 3, the search for a
    root of the embedding anywhere in an observed tree, first fit (the
    tracing package is missing). *)
Fixpoint searchTree (e : SpanExpectation) (o : ObservedTree) {struct o}
  : option MatchResult :=
  match rootedMatch e o with
  | Some bs => Some bs
  | None =>
      match o with
      | Node _ os =>
          (fix searchAll (os : list ObservedTree) : option MatchResult :=
             match os with
             | [] => None
             | o' :: os' =>
                 match searchTree e o' with
                 | Some bs => Some bs
                 | None => searchAll os'
                 end
             end) os
      end
  end.

(** Modelled from the spec: [MatchSubtree] of section 4.3 over a forest
    (the tracing package is missing). *)
Fixpoint MatchSubtree (expectedRoot : SpanExpectation) (forest : list ObservedTree)
  : MatchResult :=
  match forest with
  | [] => []
  | o :: rest =>
      match searchTree expectedRoot o with
      | Some bs => bs
      | None => MatchSubtree expectedRoot rest
      end
  end.

(** Modelled from the spec: what a present handle is shown when the attempt
    fails, the expected and the observed shape (section 4.3 item 4; the
    tracing package is missing). *)
Inductive Shapes : Type :=
| ExpectedVsObserved (want : SpanExpectation) (got : list ObservedTree).

(** Modelled from the spec: the match with its verbose-reporting handle,
    silent when the handle is nil (section 4.3 item 4; the tracing package
    is missing). *)
Definition matchWithHandle (want : SpanExpectation) (t : option testingT)
    (forest : list ObservedTree) : list Shapes * MatchResult :=
  let r := MatchSubtree want forest in
  (match t, r with
   | Some _, [] => [ExpectedVsObserved want forest]
   | _, _ => []
   end, r).

(** Modelled from the spec: a rendering of the raw span list for the log
    ([PrettyPrintTrace] of the tracing package is missing). *)
Definition prettyPrint (trace : list ObservedSpan) : string :=
  String.concat "," (map serviceName trace).

#[export] Instance helpers : TraceHelpers := {|
  SpanModel := ObservedSpan;
  SpanTree := list ObservedTree;
  TestSpanTree := SpanExpectation;
  Matched := SpanExpectation * ObservedSpan;
  error := TraceError;
  Diag := Shapes;
  GetTraceTree := BuildForest;
  MatchesSubtree := matchWithHandle;
  PrettyPrintTrace := prettyPrint;
  MatchesSubtree_nil_silent := fun _ _ => eq_refl
|}.

Definition leaf (name : string) : SpanExpectation := Expect (Exact name) None [].

Definition span (id : N) (parent : option N) (name : string) (start : Z) : ObservedSpan :=
  {| spanID := id; parentSpanID := parent; traceID := "t"; serviceName := name;
     kind := "SERVER"; startTime := start; tags := ∅ |}.

End SpanTrees.

(** ** Sample data *)

Module Samples.
Import W3C SpanTrees.
Local Open Scope string_scope.

Definition T1 : string := "0af7651916cd43dd8448eb211c80319c".
Definition T2 : string := "4bf92f3577b34da6a3ce929d0e0e4736".

Definition noHeader : EventInfo := withoutHeaders "ping".
Definition traceT1 : EventInfo :=
  withTraceparent "first" "00-0af7651916cd43dd8448eb211c80319c-b7ad6b7169203331-01".
Definition traceT2 : EventInfo :=
  withTraceparent "second" "00-4bf92f3577b34da6a3ce929d0e0e4736-00f067aa0ba902b7-01".
(** A [traceparent] whose trace ID is all zeroes is not a trace context. *)
Definition zeroTrace : EventInfo :=
  withTraceparent "zero" "00-00000000000000000000000000000000-b7ad6b7169203331-01".

(** Expectation [A→[B, C]] and the spans of the examples. *)
Definition expectB : SpanExpectation := leaf "B".
Definition expectC : SpanExpectation := leaf "C".
Definition expectABC : SpanExpectation := Expect (Exact "A") None [expectB; expectC].
Definition expectA : SpanExpectation := leaf "A".

Definition spanA : ObservedSpan := span 1 None "A" 10.
Definition spanB : ObservedSpan := span 2 (Some 1%N) "B" 30.
Definition spanC : ObservedSpan := span 3 (Some 1%N) "C" 20.
Definition spanX : ObservedSpan := span 9 None "X" 5.
(** A second span that reuses the ID of [spanA] under another name. *)
Definition spanA' : ObservedSpan := span 1 None "A2" 11.

Definition malformedTrace : list ObservedSpan := [spanA; spanA'].
Definition goodTrace : list ObservedSpan := [spanA].
Definition otherTrace : list ObservedSpan := [spanX].

(** Backends for the scripted poller: the answers tick by tick. *)
Definition malformedThenGood (_ : string) : list (list ObservedSpan + TraceError) :=
  [inl malformedTrace; inl goodTrace].
Definition malformedOnly (_ : string) : list (list ObservedSpan + TraceError) :=
  [inl malformedTrace].

Definition pollMalformedThenGood : Poller :=
  scriptedJSONTracePred (H0:=helpers) TimedOut malformedThenGood.
Definition pollMalformedOnly : Poller :=
  scriptedJSONTracePred (H0:=helpers) TimedOut malformedOnly.

(** Three fetches that do not match, and a miss followed by a match. *)
Definition pollThreeMisses : Poller :=
  scriptedJSONTracePred (H0:=helpers) TimedOut
    (fun _ => [inl otherTrace; inl otherTrace; inl otherTrace]).
Definition pollMissThenGood : Poller :=
  scriptedJSONTracePred (H0:=helpers) TimedOut
    (fun _ => [inl otherTrace; inl goodTrace]).

(** A poller that hands back a span list together with a query error. *)
Definition erroringPoller : Poller :=
  fun _ _ _ => mret (goodTrace, Some (BackendError "connection reset")).

End Samples.

(** ** [test/experimental/features/eventtype_autocreation]: waiting for event
    types *)

Module EventTypeAutocreation.
Local Open Scope string_scope.

(** [eventingv1beta2.EventType]: the code reads [Spec.Type]; the object is
    identified by [ObjectName]. *)
Record EventTypeObject : Type := {
  ObjectName : string;
  SpecType : string
}.

(** [eventingv1beta2.EventTypeList] *)
Record EventTypeList : Type := {
  Items : list EventTypeObject
}.

(** [type EventType struct]; [E] is Go's [error]. *)
Record EventType (E : Type) : Type := {
  Name : string;
  EventTypes : EventTypeList -> bool * option E
}.
Arguments Name {E} _.
Arguments EventTypes {E} _ _.

(** [AssertPresent]: [sets.String] is a [gset string]; the clone is emptied
    of the type of every listed item. *)
Definition AssertPresent {E} (expectedCeTypes : gset string) : EventType E :=
  {| Name := "test eventtypes match or not";
     EventTypes := fun etl =>
       let clonedExpectedCeTypes :=
         foldl (fun cloned et => cloned ∖ {[ SpecType et ]}) expectedCeTypes (Items etl) in
       (bool_decide (size clonedExpectedCeTypes = 0), None) |}.

(** What [wait.PollImmediate] returns when it does not return nil: the
    error of the condition, or [wait.ErrWaitTimeout]. *)
Inductive PollError (E : Type) : Type :=
| ErrWaitTimeout
| ConditionError (e : E).
Arguments ErrWaitTimeout {E}.
Arguments ConditionError {E} e.

(** [wait.PollImmediate(interval, timeout, condition)]: the condition is
    tried at once and then at every interval until it is done, fails, or the
    timeout is reached.  [answers] holds what the environment answers at the
    successive attempts made before the timeout; [st] is the state the
    condition closes over. *)
Fixpoint PollImmediate {E A S} (condition : A -> S -> bool * option E * S)
    (answers : list A) (st : S) : option (PollError E) * S :=
  match answers with
  | [] => (Some ErrWaitTimeout, st)
  | a :: later =>
      let '(done, err, st') := condition a st in
      match err with
      | Some e => (Some (ConditionError e), st')
      | None => if done : bool then (None, st') else PollImmediate condition later st'
      end
  end.

(** The variables [lastErr] and [lastEtl] the condition assigns to. *)
Record Captured (E : Type) : Type := {
  lastErr : option E;
  lastEtl : option EventTypeList
}.
Arguments lastErr {E} _.
Arguments lastEtl {E} _.

(** The condition closure of [WaitForEventType]; [answer] is what
    [EventTypes(ns).List] returned. *)
Definition listCondition {E} (eventtype : EventType E) (answer : EventTypeList + E)
    (st : Captured E) : bool * option E * Captured E :=
  match answer with
  | inr err => (false, None, {| lastErr := Some err; lastEtl := lastEtl st |})
  | inl etl =>
      let '(done, err) := EventTypes eventtype etl in
      (done, err, {| lastErr := lastErr st; lastEtl := Some etl |})
  end.

(** ["failed to verify eventtype %s %v: %v\n%+v\n"] with its arguments. *)
Inductive VerifyFailure (E : Type) : Type :=
| FailedToVerify (name : string) (err : PollError E) (lastErr : option E)
                 (lastEtl : option EventTypeList).
Arguments FailedToVerify {E} name err lastErr lastEtl.

(** [WaitForEventType]: the step function on the answers of the API server.
    [PollImmediate] makes at least one attempt, so there is a [first]
    answer. *)
Definition WaitForEventType {E L} (eventtype : EventType E)
    (first : EventTypeList + E) (later : list (EventTypeList + E))
  : Test L (VerifyFailure E) unit :=
  let '(err, st) := PollImmediate (listCondition eventtype) (first :: later)
                      {| lastErr := None; lastEtl := None |} in
  match err with
  | Some err => Fatalf (FailedToVerify (Name eventtype) err (lastErr st) (lastEtl st))
  | None => ret tt
  end.

(** The event types a listing carries. *)
Definition listedTypes (etl : EventTypeList) : gset string :=
  list_to_set (SpecType <$> Items etl).

(** The last list error and the last listing among some answers. *)
Definition lastListError {E} (answers : list (EventTypeList + E)) : option E :=
  last (omap (fun a => match a with inr e => Some e | inl _ => None end) answers).

Definition lastListing {E} (answers : list (EventTypeList + E)) : option EventTypeList :=
  last (omap (fun a => match a with inl l => Some l | inr _ => None end) answers).

(** What the condition has assigned to [lastErr] and [lastEtl] after the
    given answers. *)
Definition captureAll {E} (answers : list (EventTypeList + E)) (st : Captured E)
  : Captured E :=
  foldl (fun st a =>
           match a with
           | inr err => {| lastErr := Some err; lastEtl := lastEtl st |}
           | inl etl => {| lastErr := lastErr st; lastEtl := Some etl |}
           end) st answers.

(** An attempt after which polling goes on: a list error, or a listing the
    predicate is not done with. *)
Definition goesOn {E} (eventtype : EventType E) (a : EventTypeList + E) : Prop :=
  match a with
  | inr _ => True
  | inl etl => EventTypes eventtype etl = (false, None)
  end.

End EventTypeAutocreation.

(** ** [pkg/metrics]: the filter stats reporter *)

Module Metrics.
Local Open Scope string_scope.

Definition AnyValue : string := "any".

Definition ValueOrAny (v : string) : string :=
  if negb (String.eqb v "") then v else AnyValue.

(** [time.Duration] is an [int64] count of nanoseconds. *)
Definition isInt64 (d : Z) : Prop := (- 2 ^ 63 <= d < 2 ^ 63)%Z.

Definition Millisecond : Z := 1000000.

(** [d/time.Millisecond]: Go's integer division truncates toward zero. *)
Definition inMsec (d : Z) : Z := Z.quot d Millisecond.

(** A tag mutator: [tag.Insert(key, value)]. *)
Inductive Mutator : Type :=
| Insert (key : string) (value : string).

(** What [metrics.Record] is given. *)
Inductive Measure : Type :=
| eventCountM
| dispatchTimeInMsecM
| processingTimeInMsecM.

Record Measurement (Ctx : Type) : Type := {
  ctx : Ctx;
  measure : Measure;
  (** [1] for the counter, [float64(d/time.Millisecond)] for the latencies *)
  value : Z
}.
Arguments ctx {Ctx} _.
Arguments measure {Ctx} _.
Arguments value {Ctx} _.

Section Reporter.
(** [Ctx] is [context.Context], [E] is [error]; [Args] is the state behind
    the [MetricArgs] a caller hands in. *)
Context {Ctx E Args : Type}.
(** [args.GenerateTag(tags...)]: a method of the caller's interface value,
    called anew by every report; what it returns, and the state it leaves *)
Variable GenerateTag : Args -> list Mutator -> (Ctx + E) * Args.
(** the tag keys [LabelResponseCode] and [LabelResponseCodeClass] *)
Variable responseCodeKey responseCodeClassKey : string.
(** [strconv.Itoa] and [metrics.ResponseCodeClass] *)
Variable Itoa : Z -> string.
Variable ResponseCodeClass : Z -> string.

(** The error returned, the measurements recorded and the state of [args]
    after the call. *)
Definition ReportEventCount (args : Args) (responseCode : Z)
  : option E * list (Measurement Ctx) * Args :=
  let '(tagged, args') :=
    GenerateTag args [Insert responseCodeKey (Itoa responseCode);
                      Insert responseCodeClassKey (ResponseCodeClass responseCode)] in
  match tagged with
  | inr err => (Some err, [], args')
  | inl c => (None, [{| ctx := c; measure := eventCountM; value := 1 |}], args')
  end.

Definition ReportEventDispatchTime (args : Args) (responseCode : Z) (d : Z)
  : option E * list (Measurement Ctx) * Args :=
  let '(tagged, args') :=
    GenerateTag args [Insert responseCodeKey (Itoa responseCode);
                      Insert responseCodeClassKey (ResponseCodeClass responseCode)] in
  match tagged with
  | inr err => (Some err, [], args')
  | inl c =>
      (None, [{| ctx := c; measure := dispatchTimeInMsecM; value := inMsec d |}], args')
  end.

Definition ReportEventProcessingTime (args : Args) (d : Z)
  : option E * list (Measurement Ctx) * Args :=
  let '(tagged, args') := GenerateTag args [] in
  match tagged with
  | inr err => (Some err, [], args')
  | inl c =>
      (None, [{| ctx := c; measure := processingTimeInMsecM; value := inMsec d |}], args')
  end.

End Reporter.

End Metrics.

(** ** [pkg/reconciler/apiserversource/resources]: the receive adapter and
    its OIDC role *)

Module Resources.
Local Open Scope string_scope.
Local Open Scope list_scope.

(** How a Go call ends: with a value, with a non-nil [error], or in a
    run-time panic (nil dereference). *)
Inductive Outcome (A X : Type) : Type :=
| Ok (a : A)
| Err (e : X)
| Panic.
Arguments Ok {A X} a.
Arguments Err {A X} e.
Arguments Panic {A X}.

Module GroupVersion.
Record t : Type := { Group : string; Version : string }.
End GroupVersion.

Module GroupVersionKind.
Record t : Type := { Group : string; Version : string; Kind : string }.
End GroupVersionKind.

(** [gv.WithKind(kind)] *)
Definition WithKind (gv : GroupVersion.t) (kind : string) : GroupVersionKind.t :=
  {| GroupVersionKind.Group := GroupVersion.Group gv;
     GroupVersionKind.Version := GroupVersion.Version gv;
     GroupVersionKind.Kind := kind |}.

(** The calls into Kubernetes, knative.dev/pkg and the other packages of the
    repository, and the constants they export. *)
Class Externals : Type := {
  (** Go's [error] *)
  error : Type;
  (** [schema.GroupVersionResource] *)
  GroupVersionResource : Type;
  (** [metav1.LabelSelector] and [labels.Selector] *)
  LabelSelector : Type;
  Selector : Type;
  (** [duckv1.CloudEventOverrides] *)
  CloudEventOverrides : Type;
  (** [metav1.OwnerReference] *)
  OwnerReference : Type;
  (** [schema.ParseGroupVersion] *)
  ParseGroupVersion : string -> GroupVersion.t + error;
  (** [meta.UnsafeGuessKindToResource]: the plural and the singular *)
  UnsafeGuessKindToResource :
    GroupVersionKind.t -> GroupVersionResource * GroupVersionResource;
  (** [metav1.LabelSelectorAsSelector]: the selector, nil or not, and the
      error *)
  LabelSelectorAsSelector : LabelSelector -> option Selector * option error;
  (** [selector.String()] *)
  SelectorString : Selector -> string;
  (** [system.Namespace()]: the value of [SYSTEM_NAMESPACE]; the call panics
      when the variable is not set, which is [None] *)
  systemNamespace : option string;
  (** [adapter.EnvConfigSink] and the other names of [pkg/adapter/v2] *)
  EnvConfigSink : string;
  EnvConfigNamespace : string;
  EnvConfigName : string;
  EnvConfigCACert : string;
  EnvConfigCEOverrides : string;
  (** the verb [%q] of [fmt.Sprintf] *)
  quoted : string -> string;
  (** [kmeta.ChildName] *)
  ChildName : string -> string -> string
}.

Module APIVersionKind.
Record t : Type := { APIVersion : string; Kind : string }.
End APIVersionKind.

Module APIVersionKindSelector.
Record t `{Externals} : Type := {
  APIVersion : string;
  Kind : string;
  LabelSelector : option LabelSelector
}.
End APIVersionKindSelector.

Module ResourceWatch.
Record t `{Externals} : Type := {
  GVR : GroupVersionResource;
  LabelSelector : string
}.
End ResourceWatch.

(** [apiserver.Config], the fields [makeEnv] sets. *)
Module Config.
Record t `{Externals} : Type := {
  Namespaces : list string;
  Resources : list ResourceWatch.t;
  ResourceOwner : option APIVersionKind.t;
  EventMode : string;
  AllNamespaces : bool
}.
End Config.

Module EnvVar.
(** [ValueFrom] holds the [FieldRef.FieldPath]. *)
Record t : Type := {
  Name : string;
  Value : string;
  ValueFrom : option string
}.
End EnvVar.

(** [duckv1.AuthStatus] *)
Module AuthStatus.
Record t : Type := { ServiceAccountName : option string }.
End AuthStatus.

(** [v1.ApiServerSource], the fields the package reads. *)
Module ApiServerSource.
Record t `{Externals} : Type := {
  Name : string;
  Namespace : string;
  UID : string;
  Resources : list APIVersionKindSelector.t;
  ResourceOwner : option APIVersionKind.t;
  EventMode : string;
  ServiceAccountName : string;
  CloudEventOverrides : option CloudEventOverrides;
  Auth : option AuthStatus.t
}.
End ApiServerSource.

(** [ReceiveAdapterArgs]; "every field is required", [Source] and [Configs]
    are there.  [Configs] is what [args.Configs.ToEnvVars()] returns. *)
Module ReceiveAdapterArgs.
Record t `{Externals} : Type := {
  Image : string;
  Source : ApiServerSource.t;
  Labels : gmap string string;
  Audience : option string;
  SinkURI : string;
  CACerts : option string;
  Configs : list EnvVar.t;
  Namespaces : list string;
  AllNamespaces : bool
}.
End ReceiveAdapterArgs.

Section MakeEnv.
Context `{Externals}.
(** [json.Marshal] of the config and of the overrides, as strings *)
Variable marshalConfig : Config.t -> string + error.
Variable marshalOverrides : CloudEventOverrides -> string + error.

Inductive MakeError : Type :=
(** ["failed to parse APIVersion: %w"] *)
| FailedToParseAPIVersion (err : error)
(** ["failure to marshal cloud event overrides %v: %v"] *)
| FailureToMarshalOverrides (overrides : CloudEventOverrides) (err : error)
(** ["error generating env vars: %w"] *)
| ErrorGeneratingEnvVars (err : MakeError).

(** The loop of [makeEnv] over [args.Source.Spec.Resources]; [watches] is
    [cfg.Resources] so far. *)
Fixpoint watchResources (resources : list APIVersionKindSelector.t)
    (watches : list ResourceWatch.t) : Outcome (list ResourceWatch.t) MakeError :=
  match resources with
  | [] => Ok watches
  | r :: rest =>
      match ParseGroupVersion (APIVersionKindSelector.APIVersion r) with
      | inr err => Err (FailedToParseAPIVersion err)
      | inl gv =>
          let gvr := (UnsafeGuessKindToResource
                        (WithKind gv (APIVersionKindSelector.Kind r))).1 in
          match APIVersionKindSelector.LabelSelector r with
          | None =>
              watchResources rest
                (watches ++ [{| ResourceWatch.GVR := gvr;
                                ResourceWatch.LabelSelector := "" |}])
          | Some ls =>
              match (LabelSelectorAsSelector ls).1 with
              | None => Panic
              | Some selector =>
                  watchResources rest
                    (watches ++ [{| ResourceWatch.GVR := gvr;
                                    ResourceWatch.LabelSelector := SelectorString selector |}])
              end
          end
      end
  end.

Definition plainEnv (name value : string) : EnvVar.t :=
  {| EnvVar.Name := name; EnvVar.Value := value; EnvVar.ValueFrom := None |}.

(** The six variables every adapter gets. *)
Definition baseEnvs (args : ReceiveAdapterArgs.t) (config : string) (namespace : string)
  : list EnvVar.t :=
  [ plainEnv EnvConfigSink (ReceiveAdapterArgs.SinkURI args);
    plainEnv "K_SOURCE_CONFIG" config;
    plainEnv "SYSTEM_NAMESPACE" namespace;
    {| EnvVar.Name := EnvConfigNamespace; EnvVar.Value := "";
       EnvVar.ValueFrom := Some "metadata.namespace" |};
    plainEnv EnvConfigName (ApiServerSource.Name (ReceiveAdapterArgs.Source args));
    plainEnv "METRICS_DOMAIN" "knative.dev/eventing" ].

Definition appendIf {A} (envs : list EnvVar.t) (o : option A) (f : A -> EnvVar.t)
  : list EnvVar.t :=
  match o with
  | Some a => envs ++ [f a]
  | None => envs
  end.

Definition makeEnv (args : ReceiveAdapterArgs.t) : Outcome (list EnvVar.t) MakeError :=
  let source := ReceiveAdapterArgs.Source args in
  match watchResources (ApiServerSource.Resources source) [] with
  | Err e => Err e
  | Panic => Panic
  | Ok watches =>
      let cfg := {| Config.Namespaces := ReceiveAdapterArgs.Namespaces args;
                    Config.Resources := watches;
                    Config.ResourceOwner := ApiServerSource.ResourceOwner source;
                    Config.EventMode := ApiServerSource.EventMode source;
                    Config.AllNamespaces := ReceiveAdapterArgs.AllNamespaces args |} in
      let config := match marshalConfig cfg with
                    | inl b => b
                    | inr _ => "{}"
                    end in
      match systemNamespace with
      | None => Panic
      | Some namespace =>
      let envs := baseEnvs args config namespace in
      let envs := appendIf envs (ReceiveAdapterArgs.CACerts args) (plainEnv EnvConfigCACert) in
      let envs := appendIf envs (ReceiveAdapterArgs.Audience args) (plainEnv "K_AUDIENCE") in
      match
        match ApiServerSource.Auth source with
        | None => Some envs
        | Some a =>
            (* [*args.Source.Status.Auth.ServiceAccountName] *)
            match AuthStatus.ServiceAccountName a with
            | Some name => Some (envs ++ [plainEnv "K_OIDC_SERVICE_ACCOUNT" name])
            | None => None
            end
        end
      with
      | None => Panic
      | Some envs =>
          let envs := envs ++ ReceiveAdapterArgs.Configs args in
          match ApiServerSource.CloudEventOverrides source with
          | None => Ok envs
          | Some overrides =>
              match marshalOverrides overrides with
              | inr err => Err (FailureToMarshalOverrides overrides err)
              | inl ceJson => Ok (envs ++ [plainEnv EnvConfigCEOverrides ceJson])
              end
          end
      end
      end
  end.

(** The watch the loop appends for a resource it accepts. *)
Definition watchFor (r : APIVersionKindSelector.t) (w : ResourceWatch.t) : Prop :=
  exists gv,
    ParseGroupVersion (APIVersionKindSelector.APIVersion r) = inl gv /\
    ResourceWatch.GVR w
    = (UnsafeGuessKindToResource (WithKind gv (APIVersionKindSelector.Kind r))).1 /\
    match APIVersionKindSelector.LabelSelector r with
    | None => ResourceWatch.LabelSelector w = ""
    | Some ls =>
        exists selector, (LabelSelectorAsSelector ls).1 = Some selector /\
                         ResourceWatch.LabelSelector w = SelectorString selector
    end.

(** The API version parses and the label selector, if any, converts to a
    non-nil selector. *)
Definition resourceOK (r : APIVersionKindSelector.t) : Prop :=
  exists w, watchFor r w.

(** The variable appended for an optional argument. *)
Definition optional {A} (o : option A) (f : A -> EnvVar.t) : list EnvVar.t :=
  match o with
  | Some a => [f a]
  | None => []
  end.

End MakeEnv.

Module ObjectMeta.
Record t `{Externals} : Type := {
  Name : string;
  Namespace : string;
  Labels : gmap string string;
  Annotations : gmap string string;
  OwnerReferences : list OwnerReference
}.
End ObjectMeta.

Module PolicyRule.
Record t : Type := {
  APIGroups : list string;
  ResourceNames : list string;
  Resources : list string;
  Verbs : list string
}.
End PolicyRule.

Module Role.
Record t `{Externals} : Type := {
  ObjectMeta : ObjectMeta.t;
  Rules : list PolicyRule.t
}.
End Role.

Module RoleRef.
Record t : Type := { APIGroup : string; Kind : string; Name : string }.
End RoleRef.

Module Subject.
Record t : Type := { Kind : string; Namespace : string; Name : string }.
End Subject.

Module RoleBinding.
Record t `{Externals} : Type := {
  ObjectMeta : ObjectMeta.t;
  RoleRef : RoleRef.t;
  Subjects : list Subject.t
}.
End RoleBinding.

Module ContainerPort.
Record t : Type := { Name : string; ContainerPort : Z }.
End ContainerPort.

(** [intstr.IntOrString] *)
Inductive IntOrString : Type :=
| FromInt (n : Z)
| FromString (s : string).

Module SecurityContext.
Record t : Type := {
  AllowPrivilegeEscalation : option bool;
  ReadOnlyRootFilesystem : option bool;
  RunAsNonRoot : option bool;
  CapabilitiesDrop : list string;
  SeccompProfileType : string
}.
End SecurityContext.

Module Container.
(** [ReadinessProbe] holds the port of the probe's [HTTPGet] action. *)
Record t : Type := {
  Name : string;
  Image : string;
  Env : list EnvVar.t;
  Ports : list ContainerPort.t;
  ReadinessProbe : option IntOrString;
  SecurityContext : option SecurityContext.t
}.
End Container.

Module PodSpec.
Record t : Type := {
  ServiceAccountName : string;
  EnableServiceLinks : option bool;
  Containers : list Container.t
}.
End PodSpec.

Module PodTemplateSpec.
Record t `{Externals} : Type := {
  ObjectMeta : ObjectMeta.t;
  Spec : PodSpec.t
}.
End PodTemplateSpec.

Module DeploymentSpec.
(** [Selector] holds the [MatchLabels] of the label selector. *)
Record t `{Externals} : Type := {
  Selector : option (gmap string string);
  Replicas : option Z;
  Template : PodTemplateSpec.t
}.
End DeploymentSpec.

Module Deployment.
Record t `{Externals} : Type := {
  ObjectMeta : ObjectMeta.t;
  Spec : DeploymentSpec.t
}.
End Deployment.

Section Make.
Context `{Externals}.
(** [auth.GetOIDCServiceAccountNameForResource] *)
Variable GetOIDCServiceAccountNameForResource : GroupVersionKind.t -> ObjectMeta.t -> string.
(** [kmeta.NewControllerRef] *)
Variable NewControllerRef : ApiServerSource.t -> OwnerReference.
Variable marshalConfig : Config.t -> string + error.
Variable marshalOverrides : CloudEventOverrides -> string + error.

(** [MakeOIDCRole]; the error it returns is always nil. *)
Definition MakeOIDCRole (gvk : GroupVersionKind.t) (objectMeta : ObjectMeta.t)
  : Outcome Role.t error :=
  let roleName := "create-oidc-token" in
  Ok {| Role.ObjectMeta :=
          {| ObjectMeta.Name := roleName;
             ObjectMeta.Namespace := ObjectMeta.Namespace objectMeta;
             ObjectMeta.Labels := ∅;
             ObjectMeta.Annotations :=
               {[ "description" :=
                    String.append "Role for OIDC Authentication for "
                      (String.append (GroupVersionKind.Kind gvk)
                         (String.append " " (quoted (ObjectMeta.Name objectMeta)))) ]};
             ObjectMeta.OwnerReferences := [] |};
        Role.Rules :=
          [ {| PolicyRule.APIGroups := [""];
               PolicyRule.ResourceNames :=
                 [GetOIDCServiceAccountNameForResource gvk objectMeta];
               PolicyRule.Resources := ["serviceaccounts/token"];
               PolicyRule.Verbs := ["create"] |} ] |}.

(** [MakeOIDCRoleBinding]; the error it returns is always nil. *)
Definition MakeOIDCRoleBinding (gvk : GroupVersionKind.t) (objectMeta : ObjectMeta.t)
    (saName : string) : Outcome RoleBinding.t error :=
  let roleName := "create-oidc-token" in
  let roleBindingName := "create-oidc-token" in
  Ok {| RoleBinding.ObjectMeta :=
          {| ObjectMeta.Name := roleBindingName;
             ObjectMeta.Namespace := ObjectMeta.Namespace objectMeta;
             ObjectMeta.Labels := ∅;
             ObjectMeta.Annotations :=
               {[ "description" :=
                    String.append "Role Binding for OIDC Authentication for "
                      (String.append (GroupVersionKind.Kind gvk)
                         (String.append " " (quoted (ObjectMeta.Name objectMeta)))) ]};
             ObjectMeta.OwnerReferences := [] |};
        RoleBinding.RoleRef :=
          {| RoleRef.APIGroup := "rbac.authorization.k8s.io";
             RoleRef.Kind := "Role";
             RoleRef.Name := roleName |};
        RoleBinding.Subjects :=
          [ {| Subject.Kind := "ServiceAccount";
               Subject.Namespace := ObjectMeta.Namespace objectMeta;
               Subject.Name := saName |} ] |}.

(** [MakeReceiveAdapter] *)
Definition MakeReceiveAdapter (args : ReceiveAdapterArgs.t)
  : Outcome Deployment.t MakeError :=
  let replicas := 1%Z in
  match makeEnv marshalConfig marshalOverrides args with
  | Err err => Err (ErrorGeneratingEnvVars err)
  | Panic => Panic
  | Ok env =>
      let source := ReceiveAdapterArgs.Source args in
      Ok {| Deployment.ObjectMeta :=
              {| ObjectMeta.Namespace := ApiServerSource.Namespace source;
                 ObjectMeta.Name :=
                   ChildName
                     (String.append "apiserversource-"
                        (String.append (ApiServerSource.Name source) "-"))
                     (ApiServerSource.UID source);
                 ObjectMeta.Labels := ReceiveAdapterArgs.Labels args;
                 ObjectMeta.Annotations := ∅;
                 ObjectMeta.OwnerReferences := [NewControllerRef source] |};
            Deployment.Spec :=
              {| DeploymentSpec.Selector := Some (ReceiveAdapterArgs.Labels args);
                 DeploymentSpec.Replicas := Some replicas;
                 DeploymentSpec.Template :=
                   {| PodTemplateSpec.ObjectMeta :=
                        {| ObjectMeta.Name := "";
                           ObjectMeta.Namespace := "";
                           ObjectMeta.Labels := ReceiveAdapterArgs.Labels args;
                           ObjectMeta.Annotations := {[ "sidecar.istio.io/inject" := "true" ]};
                           ObjectMeta.OwnerReferences := [] |};
                      PodTemplateSpec.Spec :=
                        {| PodSpec.ServiceAccountName :=
                             ApiServerSource.ServiceAccountName source;
                           PodSpec.EnableServiceLinks := Some false;
                           PodSpec.Containers :=
                             [ {| Container.Name := "receive-adapter";
                                  Container.Image := ReceiveAdapterArgs.Image args;
                                  Container.Env := env;
                                  Container.Ports :=
                                    [ {| ContainerPort.Name := "metrics";
                                         ContainerPort.ContainerPort := 9090 |};
                                      {| ContainerPort.Name := "health";
                                         ContainerPort.ContainerPort := 8080 |} ];
                                  Container.ReadinessProbe := Some (FromString "health");
                                  Container.SecurityContext :=
                                    Some {| SecurityContext.AllowPrivilegeEscalation := Some false;
                                            SecurityContext.ReadOnlyRootFilesystem := Some true;
                                            SecurityContext.RunAsNonRoot := Some true;
                                            SecurityContext.CapabilitiesDrop := ["ALL"];
                                            SecurityContext.SeccompProfileType := "RuntimeDefault" |}
                               |} ] |} |} |} |}
  end.

End Make.

End Resources.

(** ** Sample event type listings and reports *)

Module EventTypeSamples.
Import EventTypeAutocreation.
Local Open Scope string_scope.

Definition ping : EventTypeObject :=
  {| ObjectName := "et-1"; SpecType := "dev.knative.sources.ping" |}.
Definition order : EventTypeObject :=
  {| ObjectName := "et-2"; SpecType := "com.example.order" |}.

Definition onlyPing : EventTypeList := {| Items := [ping] |}.
Definition both : EventTypeList := {| Items := [order; ping; order] |}.

Definition expected : gset string :=
  {[ "dev.knative.sources.ping"; "com.example.order" ]}.

(** A predicate that fails on every listing. *)
Definition broken : EventType string :=
  {| Name := "broken"; EventTypes := fun _ => (false, Some "boom") |}.

End EventTypeSamples.

(** ** A sample of the calls [makeEnv] relies on *)

Module ResourcesSamples.
Import Resources.
Local Open Scope string_scope.

Fixpoint countSlash (s : string) : nat :=
  match s with
  | EmptyString => 0
  | String c rest => (if Ascii.eqb c "/"%char then 1 else 0) + countSlash rest
  end.

Fixpoint cutSlash (s : string) : string * string :=
  match s with
  | EmptyString => ("", "")
  | String c rest =>
      if Ascii.eqb c "/"%char then ("", rest)
      else let '(before, after) := cutSlash rest in (String c before, after)
  end.

(** [schema.ParseGroupVersion]: the empty string and ["/"] give the empty
    group version, no slash a version, one slash group and version, more an
    error. *)
Definition parseGroupVersion (gv : string) : GroupVersion.t + string :=
  if String.eqb gv "" || String.eqb gv "/"
  then inl {| GroupVersion.Group := ""; GroupVersion.Version := "" |}
  else
    match countSlash gv with
    | 0 => inl {| GroupVersion.Group := ""; GroupVersion.Version := gv |}
    | 1 => let '(g, v) := cutSlash gv in
           inl {| GroupVersion.Group := g; GroupVersion.Version := v |}
    | _ => inr (String.append "unexpected GroupVersion string: " gv)
    end.

Definition guessResource (gvk : GroupVersionKind.t) : GroupVersionKind.t * GroupVersionKind.t :=
  ({| GroupVersionKind.Group := GroupVersionKind.Group gvk;
      GroupVersionKind.Version := GroupVersionKind.Version gvk;
      GroupVersionKind.Kind := String.append (GroupVersionKind.Kind gvk) "s" |},
   gvk).

#[export] Instance externals : Externals := {|
  error := string;
  GroupVersionResource := GroupVersionKind.t;
  LabelSelector := string;
  Selector := string;
  CloudEventOverrides := string;
  OwnerReference := string;
  ParseGroupVersion := parseGroupVersion;
  UnsafeGuessKindToResource := guessResource;
  LabelSelectorAsSelector := fun ls =>
    if String.eqb ls "" then (None, Some "empty selector") else (Some ls, None);
  SelectorString := fun sel => sel;
  systemNamespace := Some "knative-eventing";
  EnvConfigSink := "K_SINK";
  EnvConfigNamespace := "NAMESPACE";
  EnvConfigName := "NAME";
  EnvConfigCACert := "K_CA_CERTS";
  EnvConfigCEOverrides := "K_CE_OVERRIDES";
  quoted := fun s => String (ascii_of_nat 34) (String.append s (String (ascii_of_nat 34) ""));
  ChildName := String.append
|}.

Definition marshalConfig (cfg : Config.t) : string + string :=
  inr "json: unsupported type".
Definition marshalOverrides (o : string) : string + string := inl o.

Definition pods : APIVersionKindSelector.t :=
  {| APIVersionKindSelector.APIVersion := "v1";
     APIVersionKindSelector.Kind := "Pod";
     APIVersionKindSelector.LabelSelector := Some "app=web" |}.
Definition deployments : APIVersionKindSelector.t :=
  {| APIVersionKindSelector.APIVersion := "apps/v1";
     APIVersionKindSelector.Kind := "Deployment";
     APIVersionKindSelector.LabelSelector := None |}.
Definition badVersion : APIVersionKindSelector.t :=
  {| APIVersionKindSelector.APIVersion := "v1/v2/v3";
     APIVersionKindSelector.Kind := "Foo";
     APIVersionKindSelector.LabelSelector := None |}.
Definition nilSelector : APIVersionKindSelector.t :=
  {| APIVersionKindSelector.APIVersion := "v1";
     APIVersionKindSelector.Kind := "Foo";
     APIVersionKindSelector.LabelSelector := Some "" |}.

Definition source (resources : list APIVersionKindSelector.t)
    (auth : option AuthStatus.t) : ApiServerSource.t :=
  {| ApiServerSource.Name := "src";
     ApiServerSource.Namespace := "ns";
     ApiServerSource.UID := "1234";
     ApiServerSource.Resources := resources;
     ApiServerSource.ResourceOwner := None;
     ApiServerSource.EventMode := "Resource";
     ApiServerSource.ServiceAccountName := "sa";
     ApiServerSource.CloudEventOverrides := Some "{}";
     ApiServerSource.Auth := auth |}.

Definition args (resources : list APIVersionKindSelector.t)
    (auth : option AuthStatus.t) : ReceiveAdapterArgs.t :=
  {| ReceiveAdapterArgs.Image := "adapter:latest";
     ReceiveAdapterArgs.Source := source resources auth;
     ReceiveAdapterArgs.Labels := {[ "app" := "adapter" ]};
     ReceiveAdapterArgs.Audience := Some "sink-audience";
     ReceiveAdapterArgs.SinkURI := "http://sink";
     ReceiveAdapterArgs.CACerts := None;
     ReceiveAdapterArgs.Configs := [plainEnv "K_LOGGING_CONFIG" "{}"];
     ReceiveAdapterArgs.Namespaces := ["ns"];
     ReceiveAdapterArgs.AllNamespaces := false |}.

Definition podsWatch : ResourceWatch.t :=
  @ResourceWatch.Build_t externals
    {| GroupVersionKind.Group := ""; GroupVersionKind.Version := "v1";
       GroupVersionKind.Kind := "Pods" |}
    "app=web".

Definition controllerRef (src : ApiServerSource.t) : string :=
  ApiServerSource.Name src.
Definition oidcName (gvk : GroupVersionKind.t) (m : ObjectMeta.t) : string :=
  String.append (ObjectMeta.Name m) "-oidc".

Definition metaOf (name : string) : ObjectMeta.t :=
  {| ObjectMeta.Name := name; ObjectMeta.Namespace := "ns";
     ObjectMeta.Labels := ∅; ObjectMeta.Annotations := ∅;
     ObjectMeta.OwnerReferences := [] |}.
Definition apiServerSourceKind : GroupVersionKind.t :=
  {| GroupVersionKind.Group := "sources.knative.dev";
     GroupVersionKind.Version := "v1";
     GroupVersionKind.Kind := "ApiServerSource" |}.

Definition withName : option AuthStatus.t :=
  Some {| AuthStatus.ServiceAccountName := Some "src-oidc" |}.
Definition withoutName : option AuthStatus.t :=
  Some {| AuthStatus.ServiceAccountName := None |}.

End ResourcesSamples.

(** * Properties *)

(** ** The test monad *)

Lemma Test_bind_ret {L F A B} (a : A) (k : A -> Test L F B) :
  (mret a ≫= k) = k a.
Proof.
  unfold mbind, Test_bind, mret, Test_ret, Testing.bind, Testing.ret.
  destruct (k a) as [l r]. reflexivity.
Qed.

Lemma Test_bind_fatal {L F A B} (l : list L) (msg : F) (k : A -> Test L F B) :
  ((l, Fatal msg) ≫= k) = (l, Fatal msg).
Proof. reflexivity. Qed.

Lemma Test_bind_logged {L F A B} (l : list L) (a : A) (k : A -> Test L F B) :
  ((l, Ret a) ≫= k) = (l ++ (k a).1, (k a).2).
Proof.
  unfold mbind, Test_bind, Testing.bind. destruct (k a) as [l2 r]. reflexivity.
Qed.

(** ** The trace correlator *)

Section CorrelatorFacts.
Context `{Propagation}.

Lemma traceIDOf_None ev : traceIDOf ev = None <-> noTraceID ev.
Proof.
  unfold traceIDOf, noTraceID. destruct (HTTPHeaders ev) as [h|]; simpl.
  - destruct (HasTraceID _) eqn:E; split; intros Hn; try done.
    + specialize (Hn h eq_refl). congruence.
    + intros h' [= <-]. exact E.
  - split; [intros _ h' [=] | done].
Qed.

Lemma traceIDOf_Some ev id : traceIDOf ev = Some id <-> carriesTraceID ev id.
Proof.
  unfold traceIDOf, carriesTraceID. destruct (HTTPHeaders ev) as [h|]; simpl.
  - destruct (HasTraceID _) eqn:E; split.
    + intros [= <-]. by exists h.
    + intros (h' & [= <-] & _ & <-). done.
    + done.
    + intros (h' & [= <-] & Ht & _). congruence.
  - split; [done | intros (h' & [=] & _)].
Qed.

Lemma traceIDOf_nil_headers ev : HTTPHeaders ev = None -> traceIDOf ev = None.
Proof. unfold traceIDOf. by intros ->. Qed.

Lemma scanEvents_skip pre rest :
  Forall noTraceID pre -> scanEvents (pre ++ rest) = scanEvents rest.
Proof.
  induction 1 as [|ev pre Hev _ IH]; [done|].
  simpl. apply traceIDOf_None in Hev. by rewrite Hev.
Qed.

Lemma scanEvents_first pre ev post id :
  Forall noTraceID pre -> carriesTraceID ev id ->
  scanEvents (pre ++ ev :: post) = Some id.
Proof.
  intros Hpre Hev. rewrite scanEvents_skip by done.
  simpl. apply traceIDOf_Some in Hev. by rewrite Hev.
Qed.

Lemma scanEvents_None evInfos :
  scanEvents evInfos = None <-> Forall noTraceID evInfos.
Proof.
  induction evInfos as [|ev rest IH]; simpl.
  - split; [constructor | done].
  - destruct (traceIDOf ev) as [id|] eqn:E.
    + split; [done|]. intros Hall. apply Forall_cons in Hall as [Hev _].
      apply traceIDOf_None in Hev. congruence.
    + rewrite IH. split.
      * intros Hr. constructor; [by apply traceIDOf_None | done].
      * intros Hall. by apply Forall_cons in Hall as [_ ?].
Qed.

(** A returned ID belongs to the first event that carries one. *)
Lemma scanEvents_Some evInfos id :
  scanEvents evInfos = Some id ->
  exists pre ev post,
    evInfos = pre ++ ev :: post /\ Forall noTraceID pre /\ carriesTraceID ev id.
Proof.
  induction evInfos as [|ev rest IH]; simpl; [done|].
  destruct (traceIDOf ev) as [id'|] eqn:E.
  - intros [= ->]. exists [], ev, rest. split_and!; [done | constructor |].
    by apply traceIDOf_Some.
  - intros Hs. destruct (IH Hs) as (pre & ev' & post & -> & Hpre & Hev).
    exists (ev :: pre), ev', post. split_and!; [done | | done].
    constructor; [by apply traceIDOf_None | done].
Qed.

Lemma getTraceIDHeader_Ret {L} evInfos id :
  @getTraceIDHeader _ L evInfos = ([], Ret id) <-> scanEvents evInfos = Some id.
Proof.
  unfold getTraceIDHeader. destruct (scanEvents evInfos); simpl.
  - unfold Testing.ret. split; congruence.
  - unfold Fatalf. split; congruence.
Qed.

Lemma getTraceIDHeader_Fatal {L} evInfos :
  (exists msg, outcome (@getTraceIDHeader _ L evInfos) = Fatal msg)
  <-> scanEvents evInfos = None.
Proof.
  unfold getTraceIDHeader. destruct (scanEvents evInfos); simpl.
  - split; [intros [msg [=]] | done].
  - split; [done | intros _; by eexists].
Qed.

(** *** The loop as a transition system *)

Lemma loopStep_deterministic evInfos s s1 s2 :
  loopStep evInfos s s1 -> loopStep evInfos s s2 -> s1 = s2.
Proof.
  destruct 1; inversion 1; subst; simplify_eq; try done; congruence.
Qed.

Lemma finished_no_step evInfos s s' :
  finished s = true -> ~ loopStep evInfos s s'.
Proof. intros Hf Hs. destruct Hs; discriminate. Qed.

Lemma run_deterministic evInfos s s1 s2 :
  rtc (loopStep evInfos) s s1 -> finished s1 = true ->
  rtc (loopStep evInfos) s s2 -> finished s2 = true ->
  s1 = s2.
Proof.
  intros R1 F1. revert s2. induction R1 as [s|s m s1 Hstep _ IH]; intros s2 R2 F2.
  - destruct R2 as [|s m s2 Hstep _]; [done|].
    by apply finished_no_step in Hstep.
  - destruct R2 as [|s m' s2 Hstep' R2].
    + by apply finished_no_step in Hstep.
    + rewrite (loopStep_deterministic _ _ _ _ Hstep Hstep') in IH.
      by apply IH.
Qed.

(** From index [i] the loop reaches what [scanEvents] computes on the rest
    of the slice. *)
Lemma run_from evInfos i :
  rtc (loopStep evInfos) (AtIndex i)
    (match scanEvents (drop i evInfos) with
     | Some id => Returned id
     | None => Failed (NoTraceID (length evInfos) evInfos)
     end).
Proof.
  remember (length evInfos - i) as n eqn:Hn. revert i Hn.
  induction n as [|n IH]; intros i Hn.
  - rewrite drop_ge by lia. simpl. apply rtc_once, step_fatal.
    apply lookup_ge_None. lia.
  - destruct (evInfos !! i) as [ev|] eqn:Hi.
    2:{ apply lookup_ge_None in Hi. lia. }
    rewrite (drop_S _ _ _ Hi). simpl. unfold traceIDOf.
    destruct (HTTPHeaders ev) as [h|] eqn:Hh.
    + simpl. destruct (HasTraceID _) eqn:Ht.
      * apply rtc_once. by eapply step_return.
      * eapply rtc_l; [by eapply step_no_trace_id | apply IH; lia].
    + eapply rtc_l; [by eapply step_nil_headers | apply IH; lia].
Qed.

Lemma run_complete {L} evInfos :
  runsTo evInfos (stateOf (outcome (@getTraceIDHeader _ L evInfos))).
Proof.
  split.
  - pose proof (run_from evInfos 0) as R. rewrite drop_0 in R.
    unfold getTraceIDHeader. by destruct (scanEvents evInfos).
  - unfold getTraceIDHeader. by destruct (scanEvents evInfos).
Qed.

End CorrelatorFacts.

(** ** Claims on [getTraceIDHeader] *)

Section CorrelatorClaims.
Context `{Propagation}.

(** C3: when some captured event carries a well-formed trace context,
    [getTraceIDHeader] returns the trace ID of the first such event in list
    order; the events before it, with nil headers or headers without a
    trace ID, are skipped, and nothing is logged. *)
Theorem getTraceIDHeader_first_wins {L} (pre post : list EventInfo)
    (ev : EventInfo) (id : string) :
  Forall noTraceID pre ->
  carriesTraceID ev id ->
  @getTraceIDHeader _ L (pre ++ ev :: post) = ([], Ret id).
Proof.
  intros Hpre Hev. apply getTraceIDHeader_Ret. by apply scanEvents_first.
Qed.

(** C1, as amended: when two captured events carry well-formed trace
    contexts with different trace IDs, [getTraceIDHeader] registers no
    error; it returns the trace ID of the first event in list order that
    carries one. *)
Theorem getTraceIDHeader_distinct_ids_first_wins {L} (evInfos : list EventInfo)
    (i j : nat) (ei ej : EventInfo) (idi idj : string) :
  evInfos !! i = Some ei -> carriesTraceID ei idi ->
  evInfos !! j = Some ej -> carriesTraceID ej idj ->
  idi <> idj ->
  exists pre ev post id,
    evInfos = pre ++ ev :: post /\ Forall noTraceID pre /\ carriesTraceID ev id /\
    @getTraceIDHeader _ L evInfos = ([], Ret id).
Proof.
  intros Hi Hci _ _ _.
  destruct (scanEvents evInfos) as [id|] eqn:Hs.
  - destruct (scanEvents_Some _ _ Hs) as (pre & ev & post & -> & Hpre & Hev).
    exists pre, ev, post, id. split_and!; try done. by apply getTraceIDHeader_Ret.
  - apply scanEvents_None in Hs. rewrite Forall_lookup in Hs.
    specialize (Hs i ei Hi). apply traceIDOf_None in Hs.
    apply traceIDOf_Some in Hci. congruence.
Qed.

(** C7: an event whose header mapping is nil yields no trace ID and the
    loop moves on: with or without that event in the list the same trace
    ID is returned, a fatal error is registered in the one case exactly
    when it is in the other, and the loop always runs to an outcome. *)
Theorem getTraceIDHeader_skips_nil_headers {L} (pre post : list EventInfo)
    (ev : EventInfo) :
  HTTPHeaders ev = None ->
  traceIDOf ev = None /\
  (forall id, @getTraceIDHeader _ L (pre ++ ev :: post) = ([], Ret id)
              <-> @getTraceIDHeader _ L (pre ++ post) = ([], Ret id)) /\
  ((exists msg, outcome (@getTraceIDHeader _ L (pre ++ ev :: post)) = Fatal msg)
   <-> (exists msg, outcome (@getTraceIDHeader _ L (pre ++ post)) = Fatal msg)) /\
  runsTo (pre ++ ev :: post)
    (stateOf (outcome (@getTraceIDHeader _ L (pre ++ ev :: post)))).
Proof.
  intros Hnil. pose proof (traceIDOf_nil_headers _ Hnil) as Hev.
  assert (scanEvents (pre ++ ev :: post) = scanEvents (pre ++ post)) as Heq.
  { induction pre as [|p pre IH]; simpl; [by rewrite Hev|].
    by destruct (traceIDOf p). }
  split_and!.
  - exact Hev.
  - intros id. by rewrite !getTraceIDHeader_Ret, Heq.
  - by rewrite !getTraceIDHeader_Fatal, Heq.
  - apply run_complete.
Qed.

(** C9: trace-ID extraction is deterministic.  Every run of the loop over
    a given list ends in the one outcome [getTraceIDHeader] computes from
    that list, so two invocations on the same list agree. *)
Theorem getTraceIDHeader_deterministic (evInfos : list EventInfo) :
  runsTo evInfos (stateOf (outcome (@getTraceIDHeader _ unit evInfos))) /\
  (forall s1 s2, runsTo evInfos s1 -> runsTo evInfos s2 -> s1 = s2) /\
  (forall L1 L2, outcome (@getTraceIDHeader _ L1 evInfos)
                 = outcome (@getTraceIDHeader _ L2 evInfos)).
Proof.
  split_and!.
  - apply run_complete.
  - intros s1 s2 [R1 F1] [R2 F2]. by eapply run_deterministic.
  - intros L1 L2. unfold getTraceIDHeader. by destruct (scanEvents evInfos).
Qed.

End CorrelatorClaims.

(** The captured events of the examples, decoded by the W3C instance. *)

#[local] Existing Instance W3C.propagation.
#[local] Existing Instance SpanTrees.helpers.

Lemma sample_noHeader : noTraceID Samples.noHeader.
Proof. by intros h [=]. Qed.

Lemma sample_zeroTrace : noTraceID Samples.zeroTrace.
Proof. intros h [= <-]. vm_compute. reflexivity. Qed.

Lemma sample_traceT1 : carriesTraceID Samples.traceT1 Samples.T1.
Proof. eexists. split; [reflexivity|]. split; vm_compute; reflexivity. Qed.

Lemma sample_traceT2 : carriesTraceID Samples.traceT2 Samples.T2.
Proof. eexists. split; [reflexivity|]. split; vm_compute; reflexivity. Qed.

Lemma sample_ids_differ : Samples.T1 <> Samples.T2.
Proof. discriminate. Qed.

Lemma getTraceIDHeader_first_wins_witness :
  @getTraceIDHeader W3C.propagation unit
    ([Samples.noHeader; Samples.zeroTrace] ++ Samples.traceT1 :: [Samples.traceT2])
  = ([], Ret Samples.T1).
Proof.
  apply getTraceIDHeader_first_wins.
  - repeat constructor; [apply sample_noHeader | apply sample_zeroTrace].
  - apply sample_traceT1.
Defined.

(** C1 as stated fails: the headers list [{trace=T1}, {trace=T2}] carries
    two distinct trace IDs, and [getTraceIDHeader] returns [T1] without any
    fatal error. *)
Lemma getTraceIDHeader_two_traces_not_fatal :
  let evInfos := [Samples.traceT1; Samples.traceT2] in
  carriesTraceID Samples.traceT1 Samples.T1 /\
  carriesTraceID Samples.traceT2 Samples.T2 /\
  Samples.T1 <> Samples.T2 /\
  @getTraceIDHeader W3C.propagation unit evInfos = ([], Ret Samples.T1) /\
  ~ (exists msg, outcome (@getTraceIDHeader W3C.propagation unit evInfos) = Fatal msg).
Proof.
  split_and!.
  - apply sample_traceT1.
  - apply sample_traceT2.
  - apply sample_ids_differ.
  - vm_compute. reflexivity.
  - intros [msg Hm]. vm_compute in Hm. discriminate.
Qed.

Lemma getTraceIDHeader_distinct_ids_first_wins_witness :
  exists pre ev post id,
    [Samples.noHeader; Samples.traceT1; Samples.traceT2] = pre ++ ev :: post /\
    Forall noTraceID pre /\ carriesTraceID ev id /\
    @getTraceIDHeader W3C.propagation unit
      [Samples.noHeader; Samples.traceT1; Samples.traceT2] = ([], Ret id).
Proof.
  apply (getTraceIDHeader_distinct_ids_first_wins
           [Samples.noHeader; Samples.traceT1; Samples.traceT2]
           1 2 Samples.traceT1 Samples.traceT2 Samples.T1 Samples.T2).
  - reflexivity.
  - apply sample_traceT1.
  - reflexivity.
  - apply sample_traceT2.
  - apply sample_ids_differ.
Defined.

Lemma getTraceIDHeader_skips_nil_headers_witness :
  HTTPHeaders Samples.noHeader = None /\
  @getTraceIDHeader W3C.propagation unit
    ([Samples.zeroTrace] ++ Samples.noHeader :: [Samples.traceT2])
  = ([], Ret Samples.T2).
Proof.
  split; [reflexivity|].
  apply (getTraceIDHeader_skips_nil_headers (L:=unit)
           [Samples.zeroTrace] [Samples.traceT2] Samples.noHeader eq_refl).
  vm_compute. reflexivity.
Defined.

(** ** Claims on [tracingTest] *)

Section TracingFacts.
Context `{Propagation} `{TraceHelpers}.

Lemma tracePred_eq (expected : TestSpanTree) (trace : list SpanModel) :
  tracePred expected trace =
  ([], Ret match GetTraceTree trace with
           | inl tree => 0 <? length (MatchesSubtree expected None tree).2
           | inr _ => false
           end).
Proof.
  unfold tracePred. destruct (GetTraceTree trace) as [tree|e]; [|done].
  unfold callMatchesSubtree. rewrite MatchesSubtree_nil_silent. done.
Qed.

Lemma pollLoop_silent te (expected : TestSpanTree) ticks last lastErr :
  logged (pollLoop te (tracePred expected) ticks last lastErr) = [].
Proof.
  revert last lastErr. induction ticks as [|[fetched|e] later IH]; intros last lastErr.
  - done.
  - cbn [pollLoop]. rewrite tracePred_eq, Test_bind_logged. cbn beta iota.
    destruct (match GetTraceTree fetched with inl _ => _ | inr _ => _ end);
      [done | apply IH].
  - simpl. apply IH.
Qed.

Lemma reportPollFailure_eq (expected : TestSpanTree) traceID trace err :
  reportPollFailure expected traceID trace err =
  match GetTraceTree trace with
  | inr e =>
      ([UnableToGetTrace traceID err (PrettyPrintTrace trace)],
       Fatal (GetTraceTreeFailed e))
  | inl tree =>
      let r := MatchesSubtree expected (Some T_handle) tree in
      (UnableToGetTrace traceID err (PrettyPrintTrace trace) :: (MatcherOutput <$> r.1),
       if length r.2 =? 0 then Fatal (NoMatchingSubtree expected tree) else Ret tt)
  end.
Proof.
  unfold reportPollFailure, Logf. rewrite Test_bind_logged.
  destruct (GetTraceTree trace) as [tree|e]; [|done].
  unfold callMatchesSubtree. rewrite Test_bind_logged. simpl.
  destruct (length _ =? 0); simpl; by rewrite app_nil_r.
Qed.

Lemma tracingTest_no_trace_id (poller : Poller) (expected : TestSpanTree) matches :
  scanEvents matches = None ->
  tracingTest poller None expected matches =
  ([], Fatal (TraceIDFatal (NoTraceID (length matches) matches))).
Proof. intros Hs. unfold tracingTest, getTraceIDHeader. by rewrite Hs. Qed.


Lemma tracingTest_poll_ok (poller : Poller) (expected : TestSpanTree)
    matches traceID l0 trace :
  @getTraceIDHeader _ LogLine matches = ([], Ret traceID) ->
  poller traceID (5 * Minute)%Z (tracePred expected) = (l0, Ret (trace, None)) ->
  tracingTest poller None expected matches = (l0, Ret tt).
Proof.
  intros Hid Hpoll. unfold tracingTest. rewrite Hid. simpl liftFatal.
  rewrite Test_bind_logged. simpl. rewrite Hpoll, Test_bind_logged. simpl.
  by rewrite app_nil_r.
Qed.

(** The scripted poller never leaves through a fatal exit with the
    predicate of [tracingTest]. *)
Lemma pollLoop_returns te (expected : TestSpanTree) ticks last lastErr :
  exists trace err,
    pollLoop te (tracePred expected) ticks last lastErr = ([], Ret (trace, err)).
Proof.
  revert last lastErr. induction ticks as [|[fetched|e] later IH]; intros last lastErr.
  - by eexists _, _.
  - cbn [pollLoop]. rewrite tracePred_eq, Test_bind_logged. cbn beta iota.
    destruct (match GetTraceTree fetched with inl _ => _ | inr _ => _ end).
    + by eexists _, _.
    + destruct (IH fetched lastErr) as (trace & err & ->). by eexists _, _.
  - simpl. apply IH.
Qed.

End TracingFacts.

Section TracingClaims.
Context `{Propagation} `{TraceHelpers}.

(** C2, as amended: when [GetTraceTree] fails on the span list fetched in
    a poll iteration, the predicate reports false and writes nothing, so
    the iteration is an ordinary non-match and the poller goes on with the
    next tick; a [GetTraceTree] error ends the verification ([t.Fatal])
    only when it occurs on the last-fetched span list after the poll has
    ended with an error. *)
Theorem tracePred_rebuild_error_is_non_match te (expected : TestSpanTree)
    (trace : list SpanModel) (e : error) :
  GetTraceTree trace = inr e ->
  tracePred expected trace = ([], Ret false) /\
  (forall later last lastErr,
      pollLoop te (tracePred expected) (inl trace :: later) last lastErr
      = pollLoop te (tracePred expected) later trace lastErr) /\
  (forall traceID err,
      reportPollFailure expected traceID trace err
      = ([UnableToGetTrace traceID err (PrettyPrintTrace trace)],
         Fatal (GetTraceTreeFailed e))).
Proof.
  intros He.
  assert (tracePred expected trace = ([], Ret false)) as Hp.
  { by rewrite tracePred_eq, He. }
  split_and!.
  - exact Hp.
  - intros later last lastErr. simpl. rewrite Hp, Test_bind_logged. simpl.
    by destruct (pollLoop _ _ _ _ _).
  - intros traceID err. by rewrite reportPollFailure_eq, He.
Qed.

(** C4: when no captured event carries a usable trace-context header (the
    empty list and lists of events with nil headers included),
    [getTraceIDHeader] registers the fatal error "No traceid in n
    messages"; [tracingTest] ends there, whatever the poller would do: it
    is not called and nothing is retried. *)
Theorem getTraceIDHeader_no_usable_header_fatal (evInfos : list EventInfo) :
  Forall noTraceID evInfos ->
  (forall L, @getTraceIDHeader _ L evInfos
             = ([], Fatal (NoTraceID (length evInfos) evInfos))) /\
  (forall (poller : Poller) (expected : TestSpanTree),
      tracingTest poller None expected evInfos
      = ([], Fatal (TraceIDFatal (NoTraceID (length evInfos) evInfos)))).
Proof.
  intros Hall. apply scanEvents_None in Hall. split.
  - intros L. unfold getTraceIDHeader. by rewrite Hall.
  - intros poller expected. by apply tracingTest_no_trace_id.
Qed.

(** C5: every poll iteration calls the subtree match with the nil handle
    and writes nothing to the test log, however many iterations there are;
    only the attempt after a failed poll calls it with the handle [t], and
    what the match renders then is in the log, after the "Unable to get
    trace" line.  A run is what the poller makes of this silent predicate:
    when the poll succeeds nothing is added to what the poller logged and
    the handle is never passed, when it fails the verbose attempt is made
    once, on the span list fetched last. *)
Theorem poll_attempts_silent_final_attempt_verbose te (expected : TestSpanTree) :
  (forall trace,
      tracePred expected trace =
      ([], Ret match GetTraceTree trace with
               | inl tree => 0 <? length (MatchesSubtree expected None tree).2
               | inr _ => false
               end)) /\
  (forall ticks last lastErr,
      logged (pollLoop te (tracePred expected) ticks last lastErr) = []) /\
  (forall traceID trace err,
      logged (reportPollFailure expected traceID trace err) =
      UnableToGetTrace traceID err (PrettyPrintTrace trace) ::
      match GetTraceTree trace with
      | inl tree => MatcherOutput <$> (MatchesSubtree expected (Some T_handle) tree).1
      | inr _ => []
      end) /\
  (forall (poller : Poller) matches,
      tracingTest poller None expected matches =
      match outcome (@getTraceIDHeader _ LogLine matches) with
      | Fatal f => ([], Fatal (TraceIDFatal f))
      | Ret traceID =>
          match poller traceID (5 * Minute)%Z (tracePred expected) with
          | (l0, Fatal msg) => (l0, Fatal msg)
          | (l0, Ret (trace, None)) => (l0, Ret tt)
          | (l0, Ret (trace, Some err)) =>
              match GetTraceTree trace with
              | inr e =>
                  (l0 ++ [UnableToGetTrace traceID err (PrettyPrintTrace trace)],
                   Fatal (GetTraceTreeFailed e))
              | inl tree =>
                  let r := MatchesSubtree expected (Some T_handle) tree in
                  (l0 ++ UnableToGetTrace traceID err (PrettyPrintTrace trace)
                      :: (MatcherOutput <$> r.1),
                   if length r.2 =? 0
                   then Fatal (NoMatchingSubtree expected tree)
                   else Ret tt)
              end
          end
      end) /\
  (forall backend matches traceID,
      @getTraceIDHeader _ LogLine matches = ([], Ret traceID) ->
      exists trace err,
        pollLoop te (tracePred expected) (backend traceID) [] None
        = ([], Ret (trace, err)) /\
        tracingTest (scriptedJSONTracePred te backend) None expected matches =
        match err with
        | None => ([], Ret tt)
        | Some err =>
            match GetTraceTree trace with
            | inr e =>
                ([UnableToGetTrace traceID err (PrettyPrintTrace trace)],
                 Fatal (GetTraceTreeFailed e))
            | inl tree =>
                let r := MatchesSubtree expected (Some T_handle) tree in
                (UnableToGetTrace traceID err (PrettyPrintTrace trace)
                   :: (MatcherOutput <$> r.1),
                 if length r.2 =? 0
                 then Fatal (NoMatchingSubtree expected tree)
                 else Ret tt)
            end
        end).
Proof.
  assert (forall (poller : Poller) matches,
      tracingTest poller None expected matches =
      match outcome (@getTraceIDHeader _ LogLine matches) with
      | Fatal f => ([], Fatal (TraceIDFatal f))
      | Ret traceID =>
          match poller traceID (5 * Minute)%Z (tracePred expected) with
          | (l0, Fatal msg) => (l0, Fatal msg)
          | (l0, Ret (trace, None)) => (l0, Ret tt)
          | (l0, Ret (trace, Some err)) =>
              match GetTraceTree trace with
              | inr e =>
                  (l0 ++ [UnableToGetTrace traceID err (PrettyPrintTrace trace)],
                   Fatal (GetTraceTreeFailed e))
              | inl tree =>
                  let r := MatchesSubtree expected (Some T_handle) tree in
                  (l0 ++ UnableToGetTrace traceID err (PrettyPrintTrace trace)
                      :: (MatcherOutput <$> r.1),
                   if length r.2 =? 0
                   then Fatal (NoMatchingSubtree expected tree)
                   else Ret tt)
              end
          end
      end) as Hrun.
  { intros poller matches. unfold tracingTest, getTraceIDHeader.
    destruct (scanEvents matches) as [traceID|]; [|done].
    cbn [outcome snd Testing.ret liftFatal].
    rewrite Test_bind_logged. cbn [app].
    destruct (poller traceID (5 * Minute)%Z (tracePred expected))
      as [l0 [[trace [err|]]|msg]].
    - rewrite Test_bind_logged, reportPollFailure_eq.
      by destruct (GetTraceTree trace).
    - rewrite Test_bind_logged. simpl. by rewrite app_nil_r.
    - by rewrite Test_bind_fatal. }
  split_and!.
  - apply tracePred_eq.
  - apply pollLoop_silent.
  - intros traceID trace err. rewrite reportPollFailure_eq.
    by destruct (GetTraceTree trace).
  - exact Hrun.
  - intros backend matches traceID Hid.
    destruct (pollLoop_returns te expected (backend traceID) [] None)
      as (trace & err & Hpoll).
    exists trace, err. split; [exact Hpoll|].
    rewrite Hrun, Hid. cbn [outcome snd]. unfold scriptedJSONTracePred.
    rewrite Hpoll. destruct err as [err|]; [|done].
    by destruct (GetTraceTree trace).
Qed.



End TracingClaims.

(** ** Claims on the subtree matcher *)

Module SpanTreeClaims.
Import SpanTrees.

(** C8: with the expectation [A→[B, C]] and an observed tree whose root
    matches [A] and whose children, in their order, match [C] then [B] (and
    are not also a [B] followed by a [C]), the match fails at that node and
    [MatchSubtree] finds nothing; the same children in the expected order are
    matched. *)
Theorem MatchSubtree_order_sensitive (pA pB pC : NamePredicate)
    (kA kB kC : option string) (a b c : ObservedSpan) :
  let eB := Expect pB kB [] in
  let eC := Expect pC kC [] in
  let eA := Expect pA kA [eB; eC] in
  Matches eA a = true ->
  Matches eB b = true ->
  Matches eC c = true ->
  Matches eB c && Matches eC b = false ->
  rootedMatch eA (Node a [Node c []; Node b []]) = None /\
  MatchSubtree eA [Node a [Node c []; Node b []]] = [] /\
  MatchSubtree eA [Node a [Node b []; Node c []]] = [(eA, a); (eB, b); (eC, c)].
Proof.
  intros eB eC eA HA HB HC Hrev.
  assert (rootedMatch eA (Node a [Node c []; Node b []]) = None) as Hroot.
  { cbn -[Matches]. fold eB eC eA. rewrite HA, HB.
    destruct (Matches eB c) eqn:Hbc; cbn -[Matches].
    - cbn [andb] in Hrev. by rewrite Hrev.
    - done. }
  split_and!.
  - exact Hroot.
  - cbn -[Matches rootedMatch]. rewrite Hroot.
    cbn -[Matches]. fold eB eC eA.
    by destruct (Matches eA c), (Matches eA b).
  - cbn -[Matches]. fold eB eC eA. by rewrite HA, HB, HC.
Qed.

End SpanTreeClaims.

(** ** The claims on sample runs *)

(** The expectation [A→[B, C]] against the observed [A→{C, B}]. *)
Lemma MatchSubtree_order_sensitive_witness :
  SpanTrees.MatchSubtree Samples.expectABC
    [SpanTrees.Node Samples.spanA
       [SpanTrees.Node Samples.spanC []; SpanTrees.Node Samples.spanB []]] = [].
Proof.
  apply (SpanTreeClaims.MatchSubtree_order_sensitive
           (SpanTrees.Exact "A") (SpanTrees.Exact "B") (SpanTrees.Exact "C")
           None None None Samples.spanA Samples.spanB Samples.spanC);
    reflexivity.
Defined.

(** The forest built from the spans of [A], [B] and [C] lists [C] before
    [B], by start time. *)
Example BuildForest_orders_children :
  SpanTrees.BuildForest [Samples.spanB; Samples.spanC; Samples.spanA]
  = inl [SpanTrees.Node Samples.spanA
           [SpanTrees.Node Samples.spanC []; SpanTrees.Node Samples.spanB []]].
Proof. vm_compute. reflexivity. Qed.

Lemma tracePred_rebuild_error_is_non_match_witness :
  GetTraceTree Samples.malformedTrace = inr (SpanTrees.MalformedTraceError 1) /\
  tracePred Samples.expectA Samples.malformedTrace = ([], Ret false).
Proof.
  assert (GetTraceTree Samples.malformedTrace = inr (SpanTrees.MalformedTraceError 1))
    as He by (vm_compute; reflexivity).
  split; [exact He|].
  apply (tracePred_rebuild_error_is_non_match (H0:=SpanTrees.helpers)
           SpanTrees.TimedOut Samples.expectA
           Samples.malformedTrace (SpanTrees.MalformedTraceError 1) He).
Defined.

(** C2 as stated fails: the first poll iteration fetches a span list on
    which [GetTraceTree] fails with the malformed-trace error, the poller
    still fetches the next answer, and the verification passes on it.  With
    the first answer alone the same run ends in the fatal error. *)
Lemma tracingTest_polls_on_after_malformed_trace :
  GetTraceTree Samples.malformedTrace = inr (SpanTrees.MalformedTraceError 1) /\
  tracingTest Samples.pollMalformedThenGood
    None Samples.expectA [Samples.traceT1] = ([], Ret tt) /\
  outcome (tracingTest Samples.pollMalformedOnly
             None Samples.expectA [Samples.traceT1])
  = Fatal (GetTraceTreeFailed (SpanTrees.MalformedTraceError 1)).
Proof. split_and!; vm_compute; reflexivity. Qed.

Lemma getTraceIDHeader_no_usable_header_fatal_witness :
  Forall noTraceID [Samples.noHeader; Samples.noHeader] /\
  @getTraceIDHeader _ unit [Samples.noHeader; Samples.noHeader]
  = ([], Fatal (NoTraceID 2 [Samples.noHeader; Samples.noHeader])) /\
  tracingTest Samples.erroringPoller None Samples.expectA
    [Samples.noHeader; Samples.noHeader]
  = ([], Fatal (TraceIDFatal (NoTraceID 2 [Samples.noHeader; Samples.noHeader]))).
Proof.
  assert (Forall noTraceID [Samples.noHeader; Samples.noHeader]) as Hall
    by (repeat constructor; apply sample_noHeader).
  destruct (getTraceIDHeader_no_usable_header_fatal
              [Samples.noHeader; Samples.noHeader] Hall) as [Hget Hrun].
  split_and!; [exact Hall | apply Hget | apply Hrun].
Defined.

(** Three poll iterations that miss leave one rendering in the log, that of
    the attempt after the poll; a run whose poll succeeds logs nothing. *)
Lemma poll_attempts_silent_final_attempt_verbose_witness :
  let forest := [SpanTrees.Node Samples.spanX []] in
  tracingTest Samples.pollThreeMisses None Samples.expectA [Samples.traceT1]
  = ([UnableToGetTrace Samples.T1 (SpanTrees.TimedOut None) "X";
      MatcherOutput (SpanTrees.ExpectedVsObserved Samples.expectA forest)],
     Fatal (NoMatchingSubtree Samples.expectA forest)) /\
  tracingTest Samples.pollMissThenGood None Samples.expectA [Samples.traceT1]
  = ([], Ret tt).
Proof.
  intros forest.
  destruct (poll_attempts_silent_final_attempt_verbose (H0:=SpanTrees.helpers)
              SpanTrees.TimedOut Samples.expectA) as (_ & _ & _ & Hrun & _).
  rewrite !Hrun. split; vm_compute; reflexivity.
Defined.



(** * Further properties of the code *)

#[local] Set Warnings "-clear-no-such-hyp".

(** ** [getTraceIDHeader]: more captured events, other payloads *)

Section CorrelatorMore.
Context `{Propagation}.

(** Events captured after the one whose trace ID was returned do not change
    the result: a returned trace ID stays the result for every extension of
    the list. *)
Theorem getTraceIDHeader_stable_under_append {L} (evInfos more : list EventInfo)
    (id : string) :
  @getTraceIDHeader _ L evInfos = ([], Ret id) ->
  @getTraceIDHeader _ L (evInfos ++ more) = ([], Ret id).
Proof.
  rewrite !getTraceIDHeader_Ret. intros Hs.
  destruct (scanEvents_Some _ _ Hs) as (pre & ev & post & -> & Hpre & Hev).
  rewrite <- app_assoc. simpl. by apply scanEvents_first.
Qed.

(** [getTraceIDHeader] reads nothing but the HTTP headers of the events: two
    lists with the same headers, event by event, give the same trace ID, and
    a fatal error for the one is a fatal error for the other. *)
Theorem getTraceIDHeader_reads_headers_only {L} (evs1 evs2 : list EventInfo) :
  HTTPHeaders <$> evs1 = HTTPHeaders <$> evs2 ->
  (forall id, @getTraceIDHeader _ L evs1 = ([], Ret id)
              <-> @getTraceIDHeader _ L evs2 = ([], Ret id)) /\
  ((exists msg, outcome (@getTraceIDHeader _ L evs1) = Fatal msg)
   <-> (exists msg, outcome (@getTraceIDHeader _ L evs2) = Fatal msg)).
Proof.
  intros Hh.
  assert (scanEvents evs1 = scanEvents evs2) as Heq.
  { revert evs2 Hh. induction evs1 as [|e1 evs1 IH]; intros [|e2 evs2] Hh;
      try discriminate; [done|].
    injection Hh as Hhd Htl. simpl. unfold traceIDOf. rewrite Hhd.
    by rewrite (IH _ Htl). }
  split.
  - intros id. by rewrite !getTraceIDHeader_Ret, Heq.
  - by rewrite !getTraceIDHeader_Fatal, Heq.
Qed.

End CorrelatorMore.

Lemma getTraceIDHeader_stable_under_append_witness :
  @getTraceIDHeader W3C.propagation unit
    ([Samples.noHeader; Samples.traceT1] ++ [Samples.traceT2; Samples.noHeader])
  = ([], Ret Samples.T1).
Proof.
  apply getTraceIDHeader_stable_under_append. vm_compute. reflexivity.
Defined.

Lemma getTraceIDHeader_reads_headers_only_witness :
  @getTraceIDHeader W3C.propagation unit
    [{| Event := "renamed"; HTTPHeaders := HTTPHeaders Samples.traceT2 |}]
  = ([], Ret Samples.T2).
Proof.
  apply (getTraceIDHeader_reads_headers_only (L:=unit) [Samples.traceT2]
           [{| Event := "renamed"; HTTPHeaders := HTTPHeaders Samples.traceT2 |}]
           eq_refl).
  vm_compute. reflexivity.
Defined.

(** ** [AssertPresent] and [WaitForEventType] *)

Module EventTypeFacts.
Import EventTypeAutocreation.

Section Facts.
Context {E : Type}.
Implicit Types (eventtype : EventType E) (answers pre post : list (EventTypeList + E)).

Lemma cloned_difference (expected : gset string) (items : list EventTypeObject) :
  foldl (fun cloned et => cloned ∖ {[ SpecType et ]}) expected items
  = expected ∖ list_to_set (SpecType <$> items).
Proof.
  revert expected. induction items as [|et items IH]; intros expected; simpl.
  - set_solver.
  - rewrite IH. set_solver.
Qed.

Lemma AssertPresent_eq (expected : gset string) (etl : EventTypeList) :
  EventTypes (@AssertPresent E expected) etl
  = (bool_decide (expected ⊆ listedTypes etl), None).
Proof.
  unfold AssertPresent, listedTypes. simpl. rewrite cloned_difference.
  f_equal. apply bool_decide_ext. rewrite size_empty_iff. split.
  - intros Hempty x Hx.
    destruct (decide (x ∈ (list_to_set (SpecType <$> Items etl) : gset string)))
      as [|Hn]; [done|].
    exfalso. apply (not_elem_of_empty (C:=gset string) x). rewrite <- Hempty.
    set_solver.
  - set_solver.
Qed.

(** The outcome of the poll does not depend on what was captured before. *)
Lemma PollImmediate_result_state eventtype answers st st' :
  (PollImmediate (listCondition eventtype) answers st).1
  = (PollImmediate (listCondition eventtype) answers st').1.
Proof.
  revert st st'. induction answers as [|[etl|e] answers IH]; intros st st'; simpl.
  - done.
  - destruct (EventTypes eventtype etl) as [fin [err|]]; simpl; [done|].
    destruct fin; [done | apply IH].
  - apply IH.
Qed.

Lemma PollImmediate_goes_on eventtype pre rest st :
  Forall (goesOn eventtype) pre ->
  PollImmediate (listCondition eventtype) (pre ++ rest) st
  = PollImmediate (listCondition eventtype) rest (captureAll pre st).
Proof.
  intros Hpre. revert st. induction Hpre as [|[etl|e] pre Hgo _ IH]; intros st; simpl.
  - done.
  - simpl in Hgo. rewrite Hgo. apply IH.
  - apply IH.
Qed.

(** The three ways a poll ends, by the first attempt that does not go on. *)
Lemma PollImmediate_cases eventtype answers :
  Forall (goesOn eventtype) answers \/
  exists pre etl post fin err,
    answers = pre ++ inl etl :: post /\ Forall (goesOn eventtype) pre /\
    EventTypes eventtype etl = (fin, err) /\ (fin, err) <> (false, None).
Proof.
  induction answers as [|a answers IH].
  - left. constructor.
  - destruct a as [etl|e].
    + destruct (EventTypes eventtype etl) as [fin err] eqn:Hp.
      assert ((fin, err) = (false, None) \/ (fin, err) <> (false, None)) as [Heq|Hne]
        by (destruct fin, err; (by left) || (by right)).
      * destruct IH as [Hall|(pre & etl' & post & d & er & -> & Hpre & Hp' & Hne)].
        -- left. constructor; [simpl; congruence | done].
        -- right. exists (inl etl :: pre), etl', post, d, er.
           split_and!; try done. constructor; [simpl; congruence | done].
      * right. exists [], etl, answers, fin, err. split_and!; try done.
    + destruct IH as [Hall|(pre & etl' & post & d & er & -> & Hpre & Hp' & Hne)].
      * left. by constructor.
      * right. exists (inr e :: pre), etl', post, d, er.
        split_and!; try done. by constructor.
Qed.

Lemma PollImmediate_timeout eventtype answers st :
  Forall (goesOn eventtype) answers ->
  PollImmediate (listCondition eventtype) answers st
  = (Some ErrWaitTimeout, captureAll answers st).
Proof.
  intros Hall. rewrite <- (app_nil_r answers) at 1.
  by rewrite PollImmediate_goes_on.
Qed.

Lemma PollImmediate_stops eventtype pre etl post fin err st :
  Forall (goesOn eventtype) pre ->
  EventTypes eventtype etl = (fin, err) ->
  (fin, err) <> (false, None) ->
  PollImmediate (listCondition eventtype) (pre ++ inl etl :: post) st
  = (match err with
     | Some e => Some (ConditionError e)
     | None => None
     end, captureAll (pre ++ [inl etl]) st).
Proof.
  intros Hpre Hp Hne. rewrite PollImmediate_goes_on by done.
  unfold captureAll. rewrite foldl_app. simpl. rewrite Hp.
  destruct err as [e|]; [done|]. destruct fin; [done | congruence].
Qed.

Lemma captureAll_lastErr answers (st : Captured E) :
  lastErr (captureAll answers st)
  = match lastListError answers with
    | Some e => Some e
    | None => lastErr st
    end.
Proof.
  revert st. unfold lastListError.
  induction answers as [|[etl|e] answers IH]; intros st; simpl; [done| |].
  - by rewrite IH.
  - rewrite IH. simpl. rewrite last_cons. by destruct (last _).
Qed.

Lemma captureAll_lastEtl answers (st : Captured E) :
  lastEtl (captureAll answers st)
  = match lastListing answers with
    | Some l => Some l
    | None => lastEtl st
    end.
Proof.
  revert st. unfold lastListing.
  induction answers as [|[etl|e] answers IH]; intros st; simpl; [done| |].
  - rewrite IH. simpl. rewrite last_cons. by destruct (last _).
  - by rewrite IH.
Qed.

Lemma elem_of_listedTypes (t : string) (etl : EventTypeList) :
  t ∈ listedTypes etl <-> exists et, et ∈ Items etl /\ SpecType et = t.
Proof.
  unfold listedTypes. rewrite elem_of_list_to_set, list_elem_of_fmap.
  split; intros (et & ? & ?); exists et; done.
Qed.

Lemma WaitForEventType_eq {L} eventtype first later :
  @WaitForEventType E L eventtype first later =
  let r := PollImmediate (listCondition eventtype) (first :: later)
             {| lastErr := None; lastEtl := None |} in
  match r.1 with
  | Some err => ([], Fatal (FailedToVerify (Name eventtype) err (lastErr r.2) (lastEtl r.2)))
  | None => ([], Ret tt)
  end.
Proof.
  unfold WaitForEventType. cbv zeta.
  destruct (PollImmediate _ _ _) as [[err|] st]; reflexivity.
Qed.

Lemma AssertPresent_done_iff (expected : gset string) (etl : EventTypeList) :
  EventTypes (@AssertPresent E expected) etl = (true, None)
  <-> forall t, t ∈ expected -> exists et, et ∈ Items etl /\ SpecType et = t.
Proof.
  rewrite AssertPresent_eq. split.
  - intros [= Hd]. apply bool_decide_eq_true in Hd.
    intros t Ht. apply elem_of_listedTypes. by apply Hd.
  - intros Hall. f_equal. apply bool_decide_eq_true.
    intros t Ht. apply elem_of_listedTypes. by apply Hall.
Qed.

Lemma passes_iff {L} eventtype first later :
  outcome (@WaitForEventType E L eventtype first later) = Ret tt
  <-> exists pre etl post,
        first :: later = pre ++ inl etl :: post /\
        Forall (goesOn eventtype) pre /\
        EventTypes eventtype etl = (true, None).
Proof.
  rewrite WaitForEventType_eq. cbv zeta. split.
  - intros Hok.
    destruct (PollImmediate_cases eventtype (first :: later))
      as [Hall|(pre & etl & post & fin & err & Heq & Hpre & Hp & Hne)].
    + rewrite PollImmediate_timeout in Hok by done. discriminate.
    + rewrite Heq, (PollImmediate_stops _ _ _ _ _ _ _ Hpre Hp Hne) in Hok.
      exists pre, etl, post. split_and!; try done.
      destruct err as [e|]; [discriminate|]. by destruct fin.
  - intros (pre & etl & post & -> & Hpre & Hp).
    by rewrite (PollImmediate_stops _ _ _ _ _ _ _ Hpre Hp).
Qed.

Lemma times_out {L} eventtype first later :
  Forall (goesOn eventtype) (first :: later) ->
  @WaitForEventType E L eventtype first later
  = ([], Fatal (FailedToVerify (Name eventtype) ErrWaitTimeout
                  (lastListError (first :: later)) (lastListing (first :: later)))).
Proof.
  intros Hall. rewrite WaitForEventType_eq. cbv zeta.
  rewrite PollImmediate_timeout by done. cbn [fst snd].
  rewrite captureAll_lastErr, captureAll_lastEtl.
  by destruct (lastListError _), (lastListing _).
Qed.

End Facts.
End EventTypeFacts.

Module EventTypeProperties.
Import EventTypeAutocreation EventTypeFacts.

Section Properties.
Context {E : Type}.
Implicit Types (eventtype : EventType E) (answers pre post : list (EventTypeList + E)).

(** [AssertPresent] is done exactly when every expected type is the
    [Spec.Type] of some listed event type; it never reports an error. *)
Theorem AssertPresent_iff_all_listed (expected : gset string) (etl : EventTypeList) :
  (EventTypes (@AssertPresent E expected) etl).2 = None /\
  ((EventTypes (@AssertPresent E expected) etl).1 = true
   <-> forall t, t ∈ expected -> exists et, et ∈ Items etl /\ SpecType et = t).
Proof.
  rewrite <- (AssertPresent_done_iff (E:=E) expected etl), AssertPresent_eq.
  simpl. split; [done|].
  split; [by intros -> | by intros [= ->]].
Qed.

(** Event types listed beyond the expected ones, listed twice or in another
    order do no harm: once [AssertPresent] is done on a listing, it is done
    on every listing that has all the items of the first. *)
Theorem AssertPresent_monotone (expected : gset string) (etl etl' : EventTypeList) :
  (forall et, et ∈ Items etl -> et ∈ Items etl') ->
  EventTypes (@AssertPresent E expected) etl = (true, None) ->
  EventTypes (@AssertPresent E expected) etl' = (true, None).
Proof.
  rewrite !AssertPresent_done_iff. intros Hsub Hd t Ht.
  destruct (Hd t Ht) as (et & Hin & Heq).
  exists et. split; [by apply Hsub | done].
Qed.

(** [WaitForEventType] passes exactly when, among the attempts made before
    the timeout, there is a listing on which the predicate is done without
    error, and every attempt before it either failed to list or gave a
    listing the predicate was not done with. *)
Theorem WaitForEventType_passes_iff {L} eventtype first later :
  outcome (@WaitForEventType E L eventtype first later) = Ret tt
  <-> exists pre etl post,
        first :: later = pre ++ inl etl :: post /\
        Forall (goesOn eventtype) pre /\
        EventTypes eventtype etl = (true, None).
Proof.
  rewrite WaitForEventType_eq. cbv zeta. split.
  - intros Hok.
    destruct (PollImmediate_cases eventtype (first :: later))
      as [Hall|(pre & etl & post & fin & err & Heq & Hpre & Hp & Hne)].
    + rewrite PollImmediate_timeout in Hok by done. discriminate.
    + rewrite Heq, (PollImmediate_stops _ _ _ _ _ _ _ Hpre Hp Hne) in Hok.
      exists pre, etl, post. split_and!; try done.
      destruct err as [e|]; [discriminate|]. by destruct fin.
  - intros (pre & etl & post & -> & Hpre & Hp).
    by rewrite (PollImmediate_stops _ _ _ _ _ _ _ Hpre Hp).
Qed.

(** A failed [List] call is swallowed: an attempt answered with a list error
    does not change whether the step passes. *)
Theorem WaitForEventType_list_error_skipped {L} eventtype first
    (l1 l2 : list (EventTypeList + E)) (e : E) :
  outcome (@WaitForEventType E L eventtype first (l1 ++ inr e :: l2)) = Ret tt
  <-> outcome (@WaitForEventType E L eventtype first (l1 ++ l2)) = Ret tt.
Proof.
  rewrite !WaitForEventType_eq. cbv zeta.
  assert (forall answers st,
            (PollImmediate (listCondition eventtype) (answers ++ inr e :: l2) st).1
            = (PollImmediate (listCondition eventtype) (answers ++ l2) st).1) as Hskip.
  { induction answers as [|[etl|e'] answers IH]; intros st; simpl.
    - apply PollImmediate_result_state.
    - destruct (EventTypes eventtype etl) as [fin [err|]]; simpl; [done|].
      destruct fin; [done | apply IH].
    - apply IH. }
  rewrite !app_comm_cons, Hskip.
  by destruct (PollImmediate _ _ _).1.
Qed.

(** When no attempt before the timeout ends the poll, the step fails with
    [wait.ErrWaitTimeout], and the message carries the error of the last
    failed [List] call and the last listing obtained. *)
Theorem WaitForEventType_timeout_report {L} eventtype first later :
  Forall (goesOn eventtype) (first :: later) ->
  @WaitForEventType E L eventtype first later
  = ([], Fatal (FailedToVerify (Name eventtype) ErrWaitTimeout
                  (lastListError (first :: later)) (lastListing (first :: later)))).
Proof.
  intros Hall. rewrite WaitForEventType_eq. cbv zeta.
  rewrite PollImmediate_timeout by done. cbn [fst snd].
  rewrite captureAll_lastErr, captureAll_lastEtl.
  by destruct (lastListError _), (lastListing _).
Qed.

(** An error of the predicate itself is not retried: polling stops at that
    attempt, whatever the later attempts would have answered, and the step
    fails with the predicate's error. *)
Theorem WaitForEventType_predicate_error_stops {L} eventtype first later
    pre etl post (fin : bool) (e : E) :
  first :: later = pre ++ inl etl :: post ->
  Forall (goesOn eventtype) pre ->
  EventTypes eventtype etl = (fin, Some e) ->
  @WaitForEventType E L eventtype first later
  = ([], Fatal (FailedToVerify (Name eventtype) (ConditionError e)
                  (lastListError pre) (Some etl))).
Proof.
  intros Heq Hpre Hp. rewrite WaitForEventType_eq. cbv zeta.
  rewrite Heq, (PollImmediate_stops _ _ _ _ _ _ _ Hpre Hp) by (by destruct fin).
  cbn [fst snd]. rewrite captureAll_lastErr, captureAll_lastEtl.
  unfold lastListError, lastListing. rewrite !omap_app. simpl.
  rewrite app_nil_r, last_snoc. by destruct (last _).
Qed.

(** With [AssertPresent] the step passes exactly when some attempt before
    the timeout listed event types covering every expected type; otherwise
    it fails with the timeout error, never with a list error. *)
Theorem WaitForEventType_AssertPresent {L} (expected : gset string) first later :
  let covers (etl : EventTypeList) :=
    forall t, t ∈ expected -> exists et, et ∈ Items etl /\ SpecType et = t in
  (outcome (@WaitForEventType E L (AssertPresent expected) first later) = Ret tt
   <-> exists etl, inl etl ∈ first :: later /\ covers etl) /\
  (forall msg,
      outcome (@WaitForEventType E L (AssertPresent expected) first later) = Fatal msg ->
      msg = FailedToVerify "test eventtypes match or not" ErrWaitTimeout
              (lastListError (first :: later)) (lastListing (first :: later))).
Proof.
  intros covers.
  assert (forall pre etl' post fin err,
            first :: later = pre ++ inl etl' :: post ->
            Forall (goesOn (@AssertPresent E expected)) pre ->
            EventTypes (@AssertPresent E expected) etl' = (fin, err) ->
            (fin, err) <> (false, None) ->
            outcome (@WaitForEventType E L (AssertPresent expected) first later) = Ret tt)
    as Hstop.
  { intros pre etl' post fin err Heq Hpre Hp Hne.
    apply passes_iff. exists pre, etl', post. split_and!; try done.
    rewrite Hp. rewrite AssertPresent_eq in Hp. injection Hp as _ <-.
    by destruct fin. }
  split.
  - rewrite passes_iff. split.
    + intros (pre & etl & post & Heq & _ & Hp). exists etl. split.
      * rewrite Heq. apply elem_of_app. right. by left.
      * exact (proj1 (AssertPresent_done_iff (E:=E) expected etl) Hp).
    + intros (etl & Hin & Hc).
      destruct (PollImmediate_cases (@AssertPresent E expected) (first :: later))
        as [Hall|(pre & etl' & post & fin & err & Heq & Hpre & Hp & Hne)].
      * rewrite Forall_forall in Hall. specialize (Hall _ Hin).
        change (EventTypes (@AssertPresent E expected) etl = (false, None)) in Hall.
        pose proof (proj2 (AssertPresent_done_iff (E:=E) expected etl) Hc). congruence.
      * apply (passes_iff (L:=L)). by eapply Hstop.
  - intros msg.
    destruct (PollImmediate_cases (@AssertPresent E expected) (first :: later))
      as [Hall|(pre & etl' & post & fin & err & Heq & Hpre & Hp & Hne)].
    + rewrite (times_out _ _ _ Hall). simpl. by intros [= <-].
    + by rewrite (Hstop _ _ _ _ _ Heq Hpre Hp Hne).
Qed.

End Properties.
End EventTypeProperties.

Lemma AssertPresent_monotone_witness :
  EventTypeAutocreation.EventTypes
    (@EventTypeAutocreation.AssertPresent string {[ "dev.knative.sources.ping" ]})
    EventTypeSamples.both = (true, None).
Proof.
  apply (EventTypeProperties.AssertPresent_monotone _ EventTypeSamples.onlyPing).
  - intros et Hin. apply list_elem_of_singleton in Hin as ->.
    unfold EventTypeSamples.both. simpl. set_solver.
  - vm_compute. reflexivity.
Defined.

Lemma WaitForEventType_timeout_report_witness :
  @EventTypeAutocreation.WaitForEventType string unit
    (EventTypeAutocreation.AssertPresent EventTypeSamples.expected)
    (inr "connection refused") [inl EventTypeSamples.onlyPing; inr "too many requests"]
  = ([], Fatal (EventTypeAutocreation.FailedToVerify "test eventtypes match or not"
                  EventTypeAutocreation.ErrWaitTimeout
                  (Some "too many requests") (Some EventTypeSamples.onlyPing))).
Proof.
  apply (EventTypeProperties.WaitForEventType_timeout_report
           (EventTypeAutocreation.AssertPresent EventTypeSamples.expected)
           (inr "connection refused")
           [inl EventTypeSamples.onlyPing; inr "too many requests"]).
  repeat constructor.
Defined.

Lemma WaitForEventType_predicate_error_stops_witness :
  @EventTypeAutocreation.WaitForEventType string unit EventTypeSamples.broken
    (inr "connection refused") [inl EventTypeSamples.onlyPing; inl EventTypeSamples.both]
  = ([], Fatal (EventTypeAutocreation.FailedToVerify "broken"
                  (EventTypeAutocreation.ConditionError "boom")
                  (Some "connection refused") (Some EventTypeSamples.onlyPing))).
Proof.
  apply (EventTypeProperties.WaitForEventType_predicate_error_stops
           EventTypeSamples.broken (inr "connection refused")
           [inl EventTypeSamples.onlyPing; inl EventTypeSamples.both]
           [inr "connection refused"] EventTypeSamples.onlyPing
           [inl EventTypeSamples.both] false "boom").
  - reflexivity.
  - repeat constructor.
  - reflexivity.
Defined.

(** ** The stats reporter *)

Module MetricsProperties.
Import Metrics.
Local Open Scope Z_scope.

(** [ValueOrAny] never returns the empty string: a non-empty value is kept,
    the empty one becomes ["any"], and applying it twice changes nothing. *)
Theorem ValueOrAny_not_empty (v : string) :
  ValueOrAny v <> ""%string /\
  (v <> ""%string -> ValueOrAny v = v) /\
  (v = ""%string -> ValueOrAny v = AnyValue) /\
  ValueOrAny (ValueOrAny v) = ValueOrAny v.
Proof.
  unfold ValueOrAny. destruct (String.eqb_spec v "") as [->|Hne]; simpl.
  - split_and!; done.
  - destruct (String.eqb_spec v "") as [|_]; [done|]. split_and!; done.
Qed.

(** The latency recorded for a duration is the duration in whole
    milliseconds, truncated toward zero: it has the sign of the duration,
    less than a millisecond is recorded as zero, and for every [int64]
    duration it lies within the integers a [float64] holds exactly. *)
Theorem inMsec_truncates (d : Z) :
  isInt64 d ->
  Z.abs (inMsec d) * Millisecond <= Z.abs d < (Z.abs (inMsec d) + 1) * Millisecond /\
  (0 <= d -> 0 <= inMsec d) /\
  (d <= 0 -> inMsec d <= 0) /\
  (Z.abs d < Millisecond -> inMsec d = 0) /\
  - 2 ^ 53 < inMsec d < 2 ^ 53.
Proof.
  unfold isInt64, inMsec, Millisecond. intros Hd.
  pose proof (Z.quot_rem d 1000000 ltac:(lia)) as Hqr.
  pose proof (Z.rem_bound_abs d 1000000 ltac:(lia)) as Hb.
  pose proof (Z.rem_sign_nz d 1000000 ltac:(lia)) as Hs.
  assert (Z.rem d 1000000 = 0 \/ Z.sgn (Z.rem d 1000000) = Z.sgn d) as Hsgn.
  { destruct (Z.eq_dec (Z.rem d 1000000) 0); [by left | right; by apply Hs]. }
  lia.
Qed.

End MetricsProperties.

Lemma inMsec_truncates_witness :
  Metrics.inMsec (-1999999) = (-1)%Z /\ Metrics.inMsec 999999 = 0%Z.
Proof.
  split.
  - destruct (MetricsProperties.inMsec_truncates (-1999999)) as (Hb & _ & Hneg & _).
    + unfold Metrics.isInt64. lia.
    + unfold Metrics.Millisecond in Hb. specialize (Hneg ltac:(lia)). lia.
  - destruct (MetricsProperties.inMsec_truncates 999999) as (_ & _ & _ & Hz & _).
    + unfold Metrics.isInt64. lia.
    + apply Hz. unfold Metrics.Millisecond. lia.
Defined.

(** ** The receive adapter *)

Module ResourcesFacts.
Import Resources.

Section Facts.
Context `{Externals}.
Variable marshalConfig : Config.t -> string + error.
Variable marshalOverrides : CloudEventOverrides -> string + error.

Lemma watchResources_step r w rest watches :
  watchFor r w ->
  watchResources (r :: rest) watches = watchResources rest (watches ++ [w]).
Proof.
  intros (gv & Hgv & Hgvr & Hls). destruct w as [gvr sel]. simpl in *.
  rewrite Hgv. destruct (APIVersionKindSelector.LabelSelector r) as [ls|].
  - destruct Hls as (selector & -> & ->). by subst.
  - by subst.
Qed.

Lemma watchResources_ok resources news watches :
  Forall2 watchFor resources news ->
  watchResources resources watches = Ok (watches ++ news).
Proof.
  intros Hall. revert watches.
  induction Hall as [|r w resources news Hw _ IH]; intros watches.
  - simpl. by rewrite app_nil_r.
  - rewrite (watchResources_step _ _ _ _ Hw), IH. by rewrite <- app_assoc.
Qed.

Lemma watchResources_Ok_inv resources watches result :
  watchResources resources watches = Ok result ->
  exists news, result = watches ++ news /\ Forall2 watchFor resources news.
Proof.
  revert watches. induction resources as [|r resources IH]; intros watches; simpl.
  - intros [= <-]. exists []. split; [by rewrite app_nil_r | constructor].
  - destruct (ParseGroupVersion _) as [gv|err] eqn:Hgv; [|done].
    destruct (APIVersionKindSelector.LabelSelector r) as [ls|] eqn:Hls.
    + destruct (LabelSelectorAsSelector ls).1 as [selector|] eqn:Hsel; [|done].
      intros Hrest. destruct (IH _ Hrest) as (news & -> & Hall).
      eexists (_ :: news). split; [by rewrite <- app_assoc|].
      constructor; [|done]. exists gv. rewrite Hls. split_and!; try done.
      by exists selector.
    + intros Hrest. destruct (IH _ Hrest) as (news & -> & Hall).
      eexists (_ :: news). split; [by rewrite <- app_assoc|].
      constructor; [|done]. exists gv. rewrite Hls. by split_and!.
Qed.

Lemma resourceOK_all resources :
  Forall resourceOK resources <-> exists news, Forall2 watchFor resources news.
Proof.
  split.
  - induction 1 as [|r resources [w Hw] _ [news IH]].
    + exists []. constructor.
    + exists (w :: news). by constructor.
  - intros [news Hall]. induction Hall; constructor; [by eexists | done].
Qed.

Lemma watchResources_skip pre rest watches :
  Forall resourceOK pre ->
  exists news, Forall2 watchFor pre news /\
    watchResources (pre ++ rest) watches = watchResources rest (watches ++ news).
Proof.
  intros Hpre. revert watches. induction Hpre as [|r pre [w Hw] _ IH]; intros watches.
  - exists []. split; [constructor | by rewrite app_nil_r].
  - destruct (IH (watches ++ [w])) as (news & Hall & Heq).
    exists (w :: news). split; [by constructor|].
    simpl app at 1. rewrite (watchResources_step _ _ _ _ Hw), Heq.
    by rewrite <- app_assoc.
Qed.

Lemma appendIf_optional {A} envs (o : option A) f :
  appendIf envs o f = envs ++ optional o f.
Proof. destruct o; simpl; [done | by rewrite app_nil_r]. Qed.

(** [makeEnv] once the loop over the resources has returned. *)
Lemma makeEnv_after_loop args watches :
  watchResources (ApiServerSource.Resources (ReceiveAdapterArgs.Source args)) []
  = Ok watches ->
  let source := ReceiveAdapterArgs.Source args in
  let cfg := {| Config.Namespaces := ReceiveAdapterArgs.Namespaces args;
                Config.Resources := watches;
                Config.ResourceOwner := ApiServerSource.ResourceOwner source;
                Config.EventMode := ApiServerSource.EventMode source;
                Config.AllNamespaces := ReceiveAdapterArgs.AllNamespaces args |} in
  let config := match marshalConfig cfg with inl b => b | inr _ => "{}"%string end in
  let front namespace :=
    baseEnvs args config namespace
    ++ optional (ReceiveAdapterArgs.CACerts args) (plainEnv EnvConfigCACert)
    ++ optional (ReceiveAdapterArgs.Audience args) (plainEnv "K_AUDIENCE") in
  let finish namespace (oidc : option string) :=
    let envs := front namespace
                ++ optional oidc (plainEnv "K_OIDC_SERVICE_ACCOUNT")
                ++ ReceiveAdapterArgs.Configs args in
    match ApiServerSource.CloudEventOverrides source with
    | None => Ok envs
    | Some overrides =>
        match marshalOverrides overrides with
        | inr err => Err (FailureToMarshalOverrides overrides err)
        | inl ceJson => Ok (envs ++ [plainEnv EnvConfigCEOverrides ceJson])
        end
    end in
  makeEnv marshalConfig marshalOverrides args =
  match systemNamespace with
  | None => Panic
  | Some namespace =>
      match ApiServerSource.Auth source with
      | None => finish namespace None
      | Some a =>
          match AuthStatus.ServiceAccountName a with
          | None => Panic
          | Some name => finish namespace (Some name)
          end
      end
  end.
Proof.
  intros Hloop. cbv zeta. unfold makeEnv. rewrite Hloop. cbv zeta.
  destruct systemNamespace as [namespace|]; [|done].
  rewrite !appendIf_optional.
  destruct (ApiServerSource.Auth _) as [[[name|]]|]; simpl; try done;
    rewrite <- ?app_assoc;
    (destruct (ApiServerSource.CloudEventOverrides _) as [o|]; [|done]);
    by destruct (marshalOverrides o).
Qed.

End Facts.
End ResourcesFacts.

Module ResourcesProperties.
Import Resources ResourcesFacts.

Section Properties.
Context `{Externals}.
Variable GetOIDCServiceAccountNameForResource : GroupVersionKind.t -> ObjectMeta.t -> string.
Variable NewControllerRef : ApiServerSource.t -> OwnerReference.
Variable marshalConfig : Config.t -> string + error.
Variable marshalOverrides : CloudEventOverrides -> string + error.

(** [makeEnv] fails on the first resource whose API version does not parse,
    with "failed to parse APIVersion" around the parse error; what comes
    after that resource, and the rest of the arguments, is not looked at. *)
Theorem makeEnv_rejects_first_bad_apiVersion (args : ReceiveAdapterArgs.t)
    (pre post : list APIVersionKindSelector.t) (r : APIVersionKindSelector.t)
    (err : error) :
  ApiServerSource.Resources (ReceiveAdapterArgs.Source args) = pre ++ r :: post ->
  Forall resourceOK pre ->
  ParseGroupVersion (APIVersionKindSelector.APIVersion r) = inr err ->
  makeEnv marshalConfig marshalOverrides args = Err (FailedToParseAPIVersion err).
Proof.
  intros Hres Hpre Hparse. unfold makeEnv. rewrite Hres.
  destruct (watchResources_skip pre (r :: post) [] Hpre) as (news & _ & ->).
  simpl. by rewrite Hparse.
Qed.

(** The error of [metav1.LabelSelectorAsSelector] is dropped: when it hands
    back a nil selector for the label selector of a resource, [makeEnv] does
    not return an error, it panics on [selector.String()]. *)
Theorem makeEnv_panics_on_nil_selector (args : ReceiveAdapterArgs.t)
    (pre post : list APIVersionKindSelector.t) (r : APIVersionKindSelector.t)
    (gv : GroupVersion.t) (ls : LabelSelector) :
  ApiServerSource.Resources (ReceiveAdapterArgs.Source args) = pre ++ r :: post ->
  Forall resourceOK pre ->
  ParseGroupVersion (APIVersionKindSelector.APIVersion r) = inl gv ->
  APIVersionKindSelector.LabelSelector r = Some ls ->
  (LabelSelectorAsSelector ls).1 = None ->
  makeEnv marshalConfig marshalOverrides args = Panic.
Proof.
  intros Hres Hpre Hparse Hls Hnil. unfold makeEnv. rewrite Hres.
  destruct (watchResources_skip pre (r :: post) [] Hpre) as (news & _ & ->).
  simpl. by rewrite Hparse, Hls, Hnil.
Qed.

(** With an auth status that has no service account name, [makeEnv]
    dereferences the nil [ServiceAccountName] and panics, once the resources
    have been accepted. *)
Theorem makeEnv_panics_without_oidc_name (args : ReceiveAdapterArgs.t)
    (a : AuthStatus.t) :
  Forall resourceOK (ApiServerSource.Resources (ReceiveAdapterArgs.Source args)) ->
  ApiServerSource.Auth (ReceiveAdapterArgs.Source args) = Some a ->
  AuthStatus.ServiceAccountName a = None ->
  makeEnv marshalConfig marshalOverrides args = Panic.
Proof.
  intros Hres Hauth Hname.
  apply resourceOK_all in Hres as [news Hall].
  pose proof (watchResources_ok _ _ [] Hall) as Hloop.
  rewrite (makeEnv_after_loop marshalConfig marshalOverrides _ _ Hloop).
  cbv zeta. rewrite Hauth, Hname. by destruct systemNamespace.
Qed.

(** [makeEnv] returns environment variables exactly when every resource is
    accepted, [SYSTEM_NAMESPACE] is set (so that [system.Namespace()] does
    not panic), the auth status, if any, names its service account, and the
    cloud event overrides, if any, can be marshalled.  Whether the config
    can be marshalled plays no part. *)
Theorem makeEnv_succeeds_iff (args : ReceiveAdapterArgs.t) :
  let source := ReceiveAdapterArgs.Source args in
  (exists envs, makeEnv marshalConfig marshalOverrides args = Ok envs)
  <-> Forall resourceOK (ApiServerSource.Resources source) /\
      is_Some systemNamespace /\
      (forall a, ApiServerSource.Auth source = Some a ->
                 is_Some (AuthStatus.ServiceAccountName a)) /\
      (forall o, ApiServerSource.CloudEventOverrides source = Some o ->
                 exists ceJson, marshalOverrides o = inl ceJson).
Proof.
  intros source. subst source. split.
  - intros [envs Hok].
    destruct (watchResources (ApiServerSource.Resources (ReceiveAdapterArgs.Source args)) [])
      as [watches| |] eqn:Hloop;
      [| unfold makeEnv in Hok; by rewrite Hloop in Hok
       | unfold makeEnv in Hok; by rewrite Hloop in Hok].
    rewrite (makeEnv_after_loop marshalConfig marshalOverrides _ _ Hloop) in Hok.
    cbv zeta in Hok.
    destruct (watchResources_Ok_inv _ _ _ Hloop) as (news & _ & Hall).
    destruct systemNamespace as [namespace|]; [|done].
    split_and!.
    + apply resourceOK_all. by exists news.
    + by eexists.
    + intros a Ha. rewrite Ha in Hok.
      by destruct (AuthStatus.ServiceAccountName a).
    + intros o Ho. rewrite Ho in Hok.
      destruct (marshalOverrides o) as [ceJson|err]; [by exists ceJson|].
      destruct (ApiServerSource.Auth _) as [a|]; [|done].
      by destruct (AuthStatus.ServiceAccountName a).
  - intros (Hres & [namespace Hns] & Hauth & Hce).
    apply resourceOK_all in Hres as [news Hall].
    pose proof (watchResources_ok _ _ [] Hall) as Hloop.
    rewrite (makeEnv_after_loop marshalConfig marshalOverrides _ _ Hloop). cbv zeta.
    rewrite Hns.
    assert (forall oidc, exists envs,
              match ApiServerSource.CloudEventOverrides (ReceiveAdapterArgs.Source args) with
              | None => Ok oidc
              | Some overrides =>
                  match marshalOverrides overrides with
                  | inr err => Err (FailureToMarshalOverrides overrides err)
                  | inl ceJson => Ok (oidc ++ [plainEnv EnvConfigCEOverrides ceJson])
                  end
              end = @Ok _ MakeError envs) as Hfin.
    { intros oidc.
      destruct (ApiServerSource.CloudEventOverrides _) as [o|]; [|by eexists].
      destruct (Hce o eq_refl) as [ceJson ->]. by eexists. }
    destruct (ApiServerSource.Auth _) as [a|]; [|apply Hfin].
    destruct (Hauth a eq_refl) as [name ->]. apply Hfin.
Qed.

(** The variables [makeEnv] returns come in a fixed order: the six base
    variables, [SYSTEM_NAMESPACE] among them with the namespace of the
    system, then [K_CA_CERTS], [K_AUDIENCE] and [K_OIDC_SERVICE_ACCOUNT] for
    the arguments that are set, then the variables of [Configs], and last
    the cloud event overrides.  [K_SOURCE_CONFIG] holds the marshalled
    config, built from one watch per resource in the order of the
    resources, or ["{}"] when marshalling fails. *)
Theorem makeEnv_layout (args : ReceiveAdapterArgs.t) (envs : list EnvVar.t) :
  makeEnv marshalConfig marshalOverrides args = Ok envs ->
  let source := ReceiveAdapterArgs.Source args in
  exists watches config namespace,
    Forall2 watchFor (ApiServerSource.Resources source) watches /\
    config = match marshalConfig
                     {| Config.Namespaces := ReceiveAdapterArgs.Namespaces args;
                        Config.Resources := watches;
                        Config.ResourceOwner := ApiServerSource.ResourceOwner source;
                        Config.EventMode := ApiServerSource.EventMode source;
                        Config.AllNamespaces := ReceiveAdapterArgs.AllNamespaces args |}
             with
             | inl b => b
             | inr _ => "{}"%string
             end /\
    systemNamespace = Some namespace /\
    envs = baseEnvs args config namespace
           ++ optional (ReceiveAdapterArgs.CACerts args) (plainEnv EnvConfigCACert)
           ++ optional (ReceiveAdapterArgs.Audience args) (plainEnv "K_AUDIENCE")
           ++ optional (ApiServerSource.Auth source ≫= AuthStatus.ServiceAccountName)
                (plainEnv "K_OIDC_SERVICE_ACCOUNT")
           ++ ReceiveAdapterArgs.Configs args
           ++ optional (ApiServerSource.CloudEventOverrides source ≫=
                          fun o => match marshalOverrides o with
                                   | inl ceJson => Some ceJson
                                   | inr _ => None
                                   end)
                (plainEnv EnvConfigCEOverrides).
Proof.
  intros Hok source. subst source.
  destruct (watchResources (ApiServerSource.Resources (ReceiveAdapterArgs.Source args)) [])
    as [watches| |] eqn:Hloop;
    [| unfold makeEnv in Hok; by rewrite Hloop in Hok
     | unfold makeEnv in Hok; by rewrite Hloop in Hok].
  rewrite (makeEnv_after_loop marshalConfig marshalOverrides _ _ Hloop) in Hok.
  cbv zeta in Hok.
  destruct (watchResources_Ok_inv _ _ _ Hloop) as (news & Hw & Hall).
  simpl in Hw. subst news.
  destruct systemNamespace as [namespace|]; [|done].
  eexists watches, _, namespace. split; [done|]. split; [reflexivity|].
  split; [reflexivity|].
  destruct (ApiServerSource.Auth _) as [[[name|]]|]; simpl in *; try done;
    (destruct (ApiServerSource.CloudEventOverrides _) as [o|]; simpl;
     [destruct (marshalOverrides o); [|done] |]);
    injection Hok as <-; rewrite <- ?app_assoc; simpl; by rewrite ?app_nil_r.
Qed.

(** [MakeReceiveAdapter] returns a deployment exactly when [makeEnv] returns
    variables; an error of [makeEnv] comes back inside "error generating env
    vars", and a panic stays a panic. *)
Theorem MakeReceiveAdapter_follows_makeEnv (args : ReceiveAdapterArgs.t) :
  let made := MakeReceiveAdapter NewControllerRef marshalConfig marshalOverrides args in
  let env := makeEnv marshalConfig marshalOverrides args in
  (forall d, made = Ok d -> exists envs, env = Ok envs) /\
  (forall envs, env = Ok envs -> exists d, made = Ok d) /\
  (forall err, made = Err err <-> exists inner, env = Err inner /\
                                                err = ErrorGeneratingEnvVars inner) /\
  (made = Panic <-> env = Panic).
Proof.
  cbv zeta. unfold MakeReceiveAdapter.
  destruct (makeEnv marshalConfig marshalOverrides args) as [envs|inner|]; split_and!.
  all: naive_solver.
Qed.

(** The deployment [MakeReceiveAdapter] returns selects its own pods: the
    labels of the selector, of the pod template and of the deployment are
    the labels of the arguments.  It has one replica and one container, with
    the image of the arguments and the variables of [makeEnv], and the port
    its readiness probe names is one of the ports of the container. *)
Theorem MakeReceiveAdapter_deployment_shape (args : ReceiveAdapterArgs.t)
    (d : Deployment.t) :
  MakeReceiveAdapter NewControllerRef marshalConfig marshalOverrides args = Ok d ->
  let spec := Deployment.Spec d in
  let template := DeploymentSpec.Template spec in
  DeploymentSpec.Selector spec
  = Some (ObjectMeta.Labels (PodTemplateSpec.ObjectMeta template)) /\
  ObjectMeta.Labels (PodTemplateSpec.ObjectMeta template) = ReceiveAdapterArgs.Labels args /\
  ObjectMeta.Labels (Deployment.ObjectMeta d) = ReceiveAdapterArgs.Labels args /\
  ObjectMeta.Namespace (Deployment.ObjectMeta d)
  = ApiServerSource.Namespace (ReceiveAdapterArgs.Source args) /\
  ObjectMeta.OwnerReferences (Deployment.ObjectMeta d)
  = [NewControllerRef (ReceiveAdapterArgs.Source args)] /\
  DeploymentSpec.Replicas spec = Some 1%Z /\
  exists c port,
    PodSpec.Containers (PodTemplateSpec.Spec template) = [c] /\
    Container.Image c = ReceiveAdapterArgs.Image args /\
    makeEnv marshalConfig marshalOverrides args = Ok (Container.Env c) /\
    Container.ReadinessProbe c = Some (FromString port) /\
    port ∈ ContainerPort.Name <$> Container.Ports c.
Proof.
  unfold MakeReceiveAdapter.
  destruct (makeEnv marshalConfig marshalOverrides args) as [envs|inner|]; [|done|done].
  intros [= <-]. simpl. split_and!; try done.
  eexists _, _. split_and!; try done. simpl. set_solver.
Qed.

(** The role binding of [MakeOIDCRoleBinding] binds the role of
    [MakeOIDCRole]: it refers to a [Role] of the same name in the same
    namespace, the namespace of the object, and its only subject is the
    given service account in that namespace.  The role allows [create] on
    [serviceaccounts/token] for the OIDC service account of the object and
    nothing else.  Neither call returns an error. *)
Theorem MakeOIDCRoleBinding_binds_the_role (gvk : GroupVersionKind.t)
    (objectMeta : ObjectMeta.t) (saName : string) :
  exists role binding,
    MakeOIDCRole GetOIDCServiceAccountNameForResource gvk objectMeta = Ok role /\
    MakeOIDCRoleBinding gvk objectMeta saName = Ok binding /\
    RoleRef.Kind (RoleBinding.RoleRef binding) = "Role"%string /\
    RoleRef.Name (RoleBinding.RoleRef binding) = ObjectMeta.Name (Role.ObjectMeta role) /\
    ObjectMeta.Namespace (RoleBinding.ObjectMeta binding)
    = ObjectMeta.Namespace (Role.ObjectMeta role) /\
    ObjectMeta.Namespace (Role.ObjectMeta role) = ObjectMeta.Namespace objectMeta /\
    RoleBinding.Subjects binding
    = [{| Subject.Kind := "ServiceAccount"; Subject.Namespace := ObjectMeta.Namespace objectMeta;
          Subject.Name := saName |}] /\
    Role.Rules role
    = [{| PolicyRule.APIGroups := [""%string];
          PolicyRule.ResourceNames := [GetOIDCServiceAccountNameForResource gvk objectMeta];
          PolicyRule.Resources := ["serviceaccounts/token"%string];
          PolicyRule.Verbs := ["create"%string] |}].
Proof. eexists _, _. split_and!; reflexivity. Qed.

(** The name of the role and of the role binding does not depend on the
    object: for two objects in one namespace, of whatever kind and name,
    [MakeOIDCRole] gives roles of the same name in the same namespace, and
    so does [MakeOIDCRoleBinding] for the bindings. *)
Theorem OIDC_role_name_is_shared (gvk1 gvk2 : GroupVersionKind.t)
    (meta1 meta2 : ObjectMeta.t) (sa1 sa2 : string) (role1 role2 : Role.t)
    (binding1 binding2 : RoleBinding.t) :
  ObjectMeta.Namespace meta1 = ObjectMeta.Namespace meta2 ->
  MakeOIDCRole GetOIDCServiceAccountNameForResource gvk1 meta1 = Ok role1 ->
  MakeOIDCRole GetOIDCServiceAccountNameForResource gvk2 meta2 = Ok role2 ->
  MakeOIDCRoleBinding gvk1 meta1 sa1 = Ok binding1 ->
  MakeOIDCRoleBinding gvk2 meta2 sa2 = Ok binding2 ->
  ObjectMeta.Name (Role.ObjectMeta role1) = ObjectMeta.Name (Role.ObjectMeta role2) /\
  ObjectMeta.Namespace (Role.ObjectMeta role1)
  = ObjectMeta.Namespace (Role.ObjectMeta role2) /\
  ObjectMeta.Name (RoleBinding.ObjectMeta binding1)
  = ObjectMeta.Name (RoleBinding.ObjectMeta binding2) /\
  ObjectMeta.Namespace (RoleBinding.ObjectMeta binding1)
  = ObjectMeta.Namespace (RoleBinding.ObjectMeta binding2).
Proof.
  intros Hns [= <-] [= <-] [= <-] [= <-]. simpl. by rewrite Hns.
Qed.

End Properties.
End ResourcesProperties.

#[local] Existing Instance ResourcesSamples.externals.

(** The sample resources are accepted by the loop. *)
Lemma sample_pods_ok : Resources.resourceOK ResourcesSamples.pods.
Proof.
  exists ResourcesSamples.podsWatch.
  eexists. split; [vm_compute; reflexivity|]. split; [reflexivity|].
  simpl. by exists "app=web"%string.
Qed.

Lemma makeEnv_rejects_first_bad_apiVersion_witness :
  Resources.makeEnv ResourcesSamples.marshalConfig ResourcesSamples.marshalOverrides
    (ResourcesSamples.args
       [ResourcesSamples.pods; ResourcesSamples.badVersion; ResourcesSamples.nilSelector]
       ResourcesSamples.withoutName)
  = Resources.Err (Resources.FailedToParseAPIVersion
                     "unexpected GroupVersion string: v1/v2/v3"%string).
Proof.
  apply (ResourcesProperties.makeEnv_rejects_first_bad_apiVersion
           ResourcesSamples.marshalConfig ResourcesSamples.marshalOverrides _
           [ResourcesSamples.pods] [ResourcesSamples.nilSelector]
           ResourcesSamples.badVersion).
  - reflexivity.
  - repeat constructor. apply sample_pods_ok.
  - vm_compute. reflexivity.
Defined.

Lemma makeEnv_panics_on_nil_selector_witness :
  Resources.makeEnv ResourcesSamples.marshalConfig ResourcesSamples.marshalOverrides
    (ResourcesSamples.args
       [ResourcesSamples.pods; ResourcesSamples.nilSelector; ResourcesSamples.badVersion]
       ResourcesSamples.withName)
  = Resources.Panic.
Proof.
  apply (ResourcesProperties.makeEnv_panics_on_nil_selector
           ResourcesSamples.marshalConfig ResourcesSamples.marshalOverrides _
           [ResourcesSamples.pods] [ResourcesSamples.badVersion]
           ResourcesSamples.nilSelector
           {| Resources.GroupVersion.Group := ""; Resources.GroupVersion.Version := "v1" |}
           ""%string).
  - reflexivity.
  - repeat constructor. apply sample_pods_ok.
  - vm_compute. reflexivity.
  - reflexivity.
  - reflexivity.
Defined.

Lemma makeEnv_panics_without_oidc_name_witness :
  Resources.makeEnv ResourcesSamples.marshalConfig ResourcesSamples.marshalOverrides
    (ResourcesSamples.args [ResourcesSamples.pods] ResourcesSamples.withoutName)
  = Resources.Panic.
Proof.
  apply (ResourcesProperties.makeEnv_panics_without_oidc_name
           ResourcesSamples.marshalConfig ResourcesSamples.marshalOverrides _
           {| Resources.AuthStatus.ServiceAccountName := None |}).
  - repeat constructor. apply sample_pods_ok.
  - reflexivity.
  - reflexivity.
Defined.

Lemma makeEnv_layout_witness :
  exists envs,
    Resources.makeEnv ResourcesSamples.marshalConfig ResourcesSamples.marshalOverrides
      (ResourcesSamples.args [ResourcesSamples.pods] ResourcesSamples.withName)
    = Resources.Ok envs /\
    Resources.EnvVar.Name <$> envs
    = ["K_SINK"; "K_SOURCE_CONFIG"; "SYSTEM_NAMESPACE"; "NAMESPACE"; "NAME";
       "METRICS_DOMAIN"; "K_AUDIENCE"; "K_OIDC_SERVICE_ACCOUNT"; "K_LOGGING_CONFIG";
       "K_CE_OVERRIDES"]%string.
Proof.
  eexists. split; [vm_compute; reflexivity|].
  match goal with
  | |- _ <$> ?envs = _ =>
      destruct (ResourcesProperties.makeEnv_layout
                  ResourcesSamples.marshalConfig ResourcesSamples.marshalOverrides
                  (ResourcesSamples.args [ResourcesSamples.pods] ResourcesSamples.withName)
                  envs) as (watches & config & namespace & _ & -> & [= <-] & ->)
  end.
  - vm_compute. reflexivity.
  - reflexivity.
Defined.

Lemma MakeReceiveAdapter_deployment_shape_witness :
  exists d,
    Resources.MakeReceiveAdapter ResourcesSamples.controllerRef
      ResourcesSamples.marshalConfig ResourcesSamples.marshalOverrides
      (ResourcesSamples.args
         [ResourcesSamples.pods; ResourcesSamples.deployments] ResourcesSamples.withName)
    = Resources.Ok d /\
    Resources.DeploymentSpec.Selector (Resources.Deployment.Spec d)
    = Some {[ "app"%string := "adapter"%string ]}.
Proof.
  eexists. split; [vm_compute; reflexivity|].
  match goal with
  | |- Resources.DeploymentSpec.Selector (Resources.Deployment.Spec ?d) = _ =>
      destruct (ResourcesProperties.MakeReceiveAdapter_deployment_shape
                  ResourcesSamples.controllerRef
                  ResourcesSamples.marshalConfig ResourcesSamples.marshalOverrides
                  (ResourcesSamples.args
                     [ResourcesSamples.pods; ResourcesSamples.deployments]
                     ResourcesSamples.withName) d) as (Hsel & Hlabels & _)
  end.
  - vm_compute. reflexivity.
  - rewrite Hsel, Hlabels. reflexivity.
Defined.

Lemma OIDC_role_name_is_shared_witness :
  exists role1 role2,
    Resources.MakeOIDCRole ResourcesSamples.oidcName ResourcesSamples.apiServerSourceKind
      (ResourcesSamples.metaOf "first") = Resources.Ok role1 /\
    Resources.MakeOIDCRole ResourcesSamples.oidcName ResourcesSamples.apiServerSourceKind
      (ResourcesSamples.metaOf "second") = Resources.Ok role2 /\
    Resources.ObjectMeta.Name (Resources.Role.ObjectMeta role1)
    = Resources.ObjectMeta.Name (Resources.Role.ObjectMeta role2) /\
    Resources.Role.Rules role1 <> Resources.Role.Rules role2.
Proof.
  eexists _, _. split; [reflexivity|]. split; [reflexivity|]. split.
  - eapply (ResourcesProperties.OIDC_role_name_is_shared ResourcesSamples.oidcName
              ResourcesSamples.apiServerSourceKind ResourcesSamples.apiServerSourceKind
              (ResourcesSamples.metaOf "first") (ResourcesSamples.metaOf "second")
              "sa"%string "sa"%string); reflexivity.
  - discriminate.
Defined.
